(** * ETLPipeline: a shallow embedding of [etlpipeline.py]

    The pipeline reads a table from a file, cleans it and writes it to
    another file.  The embedding follows the Python source:

    - a [DataFrame] is an ordered list of column labels and a list of rows
      of cells; a missing value (NaN, None, NaT) is the cell [CNull];
    - the methods [extract], [transform], [load] and [run] run in a state
      and exception monad [M] over a [world]: the working directory, the
      file tree and the log stream;
    - [os.path.splitext], [os.path.abspath], [os.path.dirname] and
      [os.makedirs] follow CPython's posixpath and os modules;
    - a Python [str] is the string of the bytes of its UTF-8 encoding, in
      which [/] and [.] are bytes of their own;
    - what pandas does with the bytes of a file (parsing and rendering a
      format) is a parameter of the development, and so is [str.lower],
      Python's case mapping over Unicode. *)

From Stdlib Require Import ZArith String Ascii List Bool Lia.
From stdpp Require Import base option list strings pretty gmap.

Local Open Scope string_scope.
Local Open Scope list_scope.
Local Open Scope Z_scope.

(** ** Strings *)

Module Str.

(** [str.lower()] on a string of ASCII characters: only [A]..[Z] have a
    distinct lower case.  On other strings [str.lower()] follows the case
    mapping of Unicode, which the pipeline takes as a parameter; this
    function is what that mapping does to ASCII. *)
Definition is_upper (c : ascii) : bool :=
  (65 <=? nat_of_ascii c)%nat && (nat_of_ascii c <=? 90)%nat.

Definition lower_char (c : ascii) : ascii :=
  if is_upper c then ascii_of_nat (nat_of_ascii c + 32) else c.

Fixpoint lower (s : string) : string :=
  match s with
  | EmptyString => EmptyString
  | String c s' => String (lower_char c) (lower s')
  end.

Fixpoint chars (s : string) : list ascii :=
  match s with
  | EmptyString => []
  | String c s' => c :: chars s'
  end.

Fixpoint of_chars (l : list ascii) : string :=
  match l with
  | [] => EmptyString
  | c :: l' => String c (of_chars l')
  end.

(** [s.isascii()] *)
Definition is_ascii (s : string) : bool :=
  forallb (λ c, (nat_of_ascii c <? 128)%nat) (chars s).

(** [p.rfind(c)]: the highest index of [c] in [p], or [-1]. *)
Fixpoint rfind_from (c : ascii) (p : list ascii) (i : Z) : Z :=
  match p with
  | [] => -1
  | x :: p' =>
      let r := rfind_from c p' (i + 1) in
      if 0 <=? r then r else if Ascii.eqb x c then i else -1
  end.

Definition rfind (c : ascii) (p : string) : Z := rfind_from c (chars p) 0.

(** [p.startswith("/")] *)
Definition startswith_slash (p : string) : bool :=
  match p with
  | String c _ => Ascii.eqb c "/"
  | EmptyString => false
  end.

(** [p.split("/")] *)
Fixpoint split_slash (p : string) : list string :=
  match p with
  | EmptyString => [EmptyString]
  | String c p' =>
      if Ascii.eqb c "/" then EmptyString :: split_slash p'
      else match split_slash p' with
           | [] => [String c EmptyString]
           | w :: ws => String c w :: ws
           end
  end.

End Str.

(** ** Paths: posixpath *)

Module Path.

(** The loop of [genericpath._splitext] that skips the leading dots of the
    file name: it answers [true] as soon as a character other than a dot
    is met between [filenameIndex] and [dotIndex]. *)
Fixpoint skip_leading_dots (p : list ascii) (steps : nat) : bool :=
  match steps, p with
  | O, _ => false
  | S _, [] => false
  | S steps', c :: p' =>
      if negb (Ascii.eqb c ".") then true else skip_leading_dots p' steps'
  end.

(** [os.path.splitext(p)] *)
Definition splitext (p : string) : string * string :=
  let sepIndex := Str.rfind "/" p in
  let dotIndex := Str.rfind "." p in
  if sepIndex <? dotIndex then
    let filenameIndex := sepIndex + 1 in
    if skip_leading_dots (drop (Z.to_nat filenameIndex) (Str.chars p))
         (Z.to_nat (dotIndex - filenameIndex))
    then (Str.of_chars (take (Z.to_nat dotIndex) (Str.chars p)),
          Str.of_chars (drop (Z.to_nat dotIndex) (Str.chars p)))
    else (p, EmptyString)
  else (p, EmptyString).

(** The loop of [posixpath.normpath] on an absolute path: empty and [.]
    components are skipped, [..] pops a component and is dropped at the
    root.  A location is the list of its components below the root. *)
Definition norm_step (new_comps : list string) (comp : string) : list string :=
  if bool_decide (comp = "" ∨ comp = ".") then new_comps
  else if bool_decide (comp = "..") then removelast new_comps
  else new_comps ++ [comp].

(** [os.path.abspath(p)] when the working directory is [cwd]: a relative
    path is joined to [cwd] first.  Symbolic links are not modelled, so
    the location also is where the system finds the file named [p]. *)
Definition abspath (cwd : list string) (p : string) : list string :=
  fold_left norm_step (Str.split_slash p)
    (if Str.startswith_slash p then [] else cwd).

(** [os.path.dirname] of an absolute normalised path *)
Definition dirname (p : list string) : list string := removelast p.

End Path.

(** ** Exceptions *)

Inductive os_error :=
| FileNotFoundError
| FileExistsError
| NotADirectoryError
| IsADirectoryError.

(** [ValueError] is what the pipeline raises itself for an extension it does
    not support, and also what pandas raises for much of what goes wrong in
    a reader or a writer; [AttributeError] is raised by [col.lower()] on a
    label that is not a string; [OSError] comes from the file tree;
    [Exception] stands for an exception of any other class. *)
Inductive exn :=
| ValueError (msg : string)
| AttributeError (msg : string)
| OSError (e : os_error) (location : list string)
| Exception (class msg : string).

Inductive result (A : Type) :=
| Ok (a : A)
| Raise (e : exn).
Arguments Ok {A} a.
Arguments Raise {A} e.

(** ** Data frames *)

Inductive cell :=
| CNull
| CStr (s : string)
| CInt (z : Z)
| CBool (b : bool).

(** A column label is a string, or a number when the header of the file was
    numeric. *)
Inductive label :=
| LStr (s : string)
| LInt (z : Z).

#[global] Instance cell_eq_dec : EqDecision cell.
Proof. solve_decision. Defined.
#[global] Instance label_eq_dec : EqDecision label.
Proof. solve_decision. Defined.

Record DataFrame := mkDataFrame {
  columns : list label;
  rows : list (list cell)
}.

(** Every row has one cell per column. *)
Definition well_formed (d : DataFrame) : Prop :=
  Forall (λ r, length r = length (columns d)) (rows d).

Module Pandas.

Definition notna (c : cell) : bool :=
  match c with CNull => false | _ => true end.

(** [len(data)] *)
Definition len (d : DataFrame) : nat := length (rows d).

(** [data.dropna()]: a new frame with the rows that have no missing
    value. *)
Definition dropna (d : DataFrame) : DataFrame :=
  {| columns := columns d; rows := List.filter (forallb notna) (rows d) |}.

(** [data.columns = cols] *)
Definition set_columns (cols : list label) (d : DataFrame) : DataFrame :=
  {| columns := cols; rows := rows d |}.

(** [key in data.columns] *)
Definition contains (key : string) (d : DataFrame) : bool :=
  bool_decide (LStr key ∈ columns d).

(** One row of [data[key] = values] when the label is there: the cell of
    every column labelled [key] is overwritten. *)
Definition put (cols : list label) (key : string) (v : cell) (r : list cell)
  : list cell :=
  imap (λ j c, if bool_decide (cols !! j = Some (LStr key)) then v else c) r.

(** [data[key] = values] for a list-like [values], matched to the rows by
    position: an existing column is overwritten, a new one is appended
    last.  pandas refuses a list of another length than the frame with a
    [ValueError] that tells the two lengths. *)
Definition setitem (key : string) (values : list cell) (d : DataFrame)
  : result DataFrame :=
  if negb (length values =? len d)%nat then
    Raise (ValueError ("Length of values (" +:+ pretty (length values)
                       +:+ ") does not match length of index ("
                       +:+ pretty (len d) +:+ ")"))
  else if contains key d then
    Ok {| columns := columns d;
          rows := zip_with (put (columns d) key) values (rows d) |}
  else
    Ok {| columns := columns d ++ [LStr key];
          rows := zip_with (λ r v, r ++ [v]) (rows d) values |}.

(** [data[key] = v] for a scalar [v]: the value is broadcast to every
    row. *)
Definition setitem_scalar (key : string) (v : cell) (d : DataFrame)
  : result DataFrame :=
  setitem key (replicate (len d) v) d.

(** [range(start, stop)] as cells *)
Definition range (start stop : Z) : list cell :=
  CInt <$> seqZ start (stop - start).

End Pandas.

(** [col.lower()], with [lower] for [str.lower] *)
Definition label_lower (lower : string → string) (col : label) : result label :=
  match col with
  | LStr s => Ok (LStr (lower s))
  | LInt _ => Raise (AttributeError "'int' object has no attribute 'lower'")
  end.

(** [[col.lower() for col in cols]] *)
Fixpoint labels_lower (lower : string → string) (cols : list label)
  : result (list label) :=
  match cols with
  | [] => Ok []
  | col :: cols' =>
      match label_lower lower col with
      | Raise e => Raise e
      | Ok l =>
          match labels_lower lower cols' with
          | Raise e => Raise e
          | Ok ls => Ok (l :: ls)
          end
      end
  end.

(** ** The world: working directory, file tree and log stream *)

Inductive node :=
| File (content : string)
| Dir.

#[global] Instance node_eq_dec : EqDecision node.
Proof. solve_decision. Defined.

Inductive level := INFO | ERROR.

(** The messages of the pipeline's logger, one constructor per call. *)
Inductive message :=
| Initialized (source destination : string)
| Extracting (source : string)
| Extracted (records : nat)
| ExtractionFailed (e : exn)
| Transforming
| Transformed (records : nat)
| TransformationFailed (e : exn)
| Loading (destination : string)
| Loaded (records : nat) (destination : string)
| LoadFailed (e : exn)
| PipelineStarting
| PipelineCompleted
| PipelineFailed (e : exn).

(** The file tree maps a location to a file or a directory; the root is a
    directory and has no entry.  The log stream of the [etl_pipeline] logger
    (its file handler and the console) is a component of its own. *)
Record world := mkWorld {
  cwd : list string;
  fs : gmap (list string) node;
  log : list (level * message)
}.

(** Every entry of the tree lies in a directory. *)
Definition tree (s : gmap (list string) node) : Prop :=
  ∀ p x n, s !! (p ++ [x]) = Some n → p = [] ∨ s !! p = Some Dir.

(** ** The monad: state, and exceptions that keep the state *)

Definition M (A : Type) : Type := world → result A * world.

Definition ret {A} (a : A) : M A := λ w, (Ok a, w).

Definition bind {A B} (c : M A) (k : A → M B) : M B :=
  λ w, match c w with
       | (Ok a, w') => k a w'
       | (Raise e, w') => (Raise e, w')
       end.

Definition raise {A} (e : exn) : M A := λ w, (Raise e, w).

(** [try: c except Exception as e: h e] *)
Definition try_except {A} (c : M A) (h : exn → M A) : M A :=
  λ w, match c w with
       | (Ok a, w') => (Ok a, w')
       | (Raise e, w') => h e w'
       end.

Definition get : M world := λ w, (Ok w, w).

Definition lift {A} (r : result A) : M A := λ w, (r, w).

Declare Scope etl_scope.
Delimit Scope etl_scope with etl.
Notation "x <- c ;; k" := (bind c (λ x, k))
  (at level 100, c at next level, right associativity) : etl_scope.
Notation "c ;; k" := (bind c (λ _, k))
  (at level 100, right associativity) : etl_scope.
Local Open Scope etl_scope.

Definition logger_info (m : message) : M unit :=
  λ w, (Ok tt, {| cwd := cwd w; fs := fs w; log := log w ++ [(INFO, m)] |}).

Definition logger_error (m : message) : M unit :=
  λ w, (Ok tt, {| cwd := cwd w; fs := fs w; log := log w ++ [(ERROR, m)] |}).

(** ** The file tree: os and builtins *)

Module Os.

(** [os.path.exists] *)
Definition path_exists (s : gmap (list string) node) (p : list string) : bool :=
  bool_decide (p = [] ∨ is_Some (s !! p)).

(** [os.path.isdir] *)
Definition isdir (s : gmap (list string) node) (p : list string) : bool :=
  bool_decide (p = [] ∨ s !! p = Some Dir).

(** The error of a system call on a location it cannot reach.  The system
    walks down from the root, [above] being where it stands and [below]
    what is left of the path: the walk ends at the first component that is
    not there ([FileNotFoundError]) or that is a file with components left
    below it ([NotADirectoryError]). *)
Fixpoint walk_error (s : gmap (list string) node) (above below : list string)
  : os_error :=
  match below with
  | [] => FileNotFoundError
  | x :: below' =>
      match s !! (above ++ [x]) with
      | Some Dir => walk_error s (above ++ [x]) below'
      | Some (File _) => NotADirectoryError
      | None => FileNotFoundError
      end
  end.

(** [os.mkdir(name)] *)
Definition mkdir (name : list string) : M unit :=
  λ w,
    if path_exists (fs w) name then
      (Raise (OSError FileExistsError name), w)
    else if negb (isdir (fs w) (Path.dirname name)) then
      (Raise (OSError (walk_error (fs w) [] name) name), w)
    else
      (Ok tt, {| cwd := cwd w; fs := <[name := Dir]> (fs w); log := log w |}).

(** [os.makedirs(name, exist_ok=exist_ok)], by recursion on the components
    of [name] from the last one: a missing parent is made first (a
    [FileExistsError] of that call is passed over), then [name] itself,
    and a failure of [mkdir] is kept quiet when [exist_ok] holds and
    [name] is a directory. *)
Fixpoint makedirs_rev (rname : list string) (exist_ok : bool) : M unit :=
  (match rname with
   | [] => ret tt
   | tail :: rhead =>
       w <- get ;;
       if negb (path_exists (fs w) (reverse rhead)) then
         try_except (makedirs_rev rhead exist_ok)
           (λ e, match e with
                 | OSError FileExistsError _ => ret tt
                 | _ => raise e
                 end)
       else ret tt
   end) ;;
  try_except (mkdir (reverse rname))
    (λ e, w <- get ;;
          if negb exist_ok || negb (isdir (fs w) (reverse rname))
          then raise e else ret tt).

Definition makedirs (name : list string) (exist_ok : bool) : M unit :=
  makedirs_rev (reverse name) exist_ok.

(** Reading the whole file named [path]. *)
Definition read_file (path : string) : M string :=
  λ w,
    let loc := Path.abspath (cwd w) path in
    match fs w !! loc with
    | Some (File content) => (Ok content, w)
    | Some Dir => (Raise (OSError IsADirectoryError loc), w)
    | None =>
        if bool_decide (loc = []) then (Raise (OSError IsADirectoryError loc), w)
        else (Raise (OSError (walk_error (fs w) [] loc) loc), w)
    end.

(** Writing [content] as the whole file named [path]: the file is made or
    replaced; its directory has to be there. *)
Definition write_file (path : string) (content : string) : M unit :=
  λ w,
    let loc := Path.abspath (cwd w) path in
    if isdir (fs w) loc then (Raise (OSError IsADirectoryError loc), w)
    else if negb (isdir (fs w) (Path.dirname loc)) then
      (Raise (OSError (walk_error (fs w) [] loc) loc), w)
    else
      (Ok tt, {| cwd := cwd w; fs := <[loc := File content]> (fs w);
                 log := log w |}).

End Os.

(** ** The pipeline *)

Record ETLPipeline := mkETLPipeline {
  source_path : string;
  destination_path : string
}.

Section Pipeline.

(** [str.lower]: Python's lower-casing of a string, by the case mapping of
    Unicode. *)
Variable lower : string → string.

(** What pandas makes of the content of the file named by a path, one
    parser per reader: a frame, or the exception it raises, of whatever
    class ... *)
Variable parse_csv parse_json parse_excel : string → string → result DataFrame.

(** ... and the content pandas writes for a frame, one renderer per
    writer, or the exception it raises. *)
Variable render_csv render_json render_excel : string → DataFrame → result string.

(** [pd.read_csv(path)], [pd.read_json(path)], [pd.read_excel(path)] *)
Definition read_with (parse : string → string → result DataFrame)
    (path : string) : M DataFrame :=
  content <- Os.read_file path ;;
  lift (parse path content).

Definition read_csv := read_with parse_csv.
Definition read_json := read_with parse_json.
Definition read_excel := read_with parse_excel.

(** [data.to_csv(path, index=False)],
    [data.to_json(path, orient='records')],
    [data.to_excel(path, index=False)] *)
Definition write_with (render : string → DataFrame → result string)
    (data : DataFrame) (path : string) : M unit :=
  content <- lift (render path data) ;;
  Os.write_file path content.

Definition to_csv := write_with render_csv.
Definition to_json := write_with render_json.
Definition to_excel := write_with render_excel.

(** [ETLPipeline(source_path, destination_path)] *)
Definition init (source destination : string) : M ETLPipeline :=
  logger_info (Initialized source destination) ;;
  ret {| source_path := source; destination_path := destination |}.

(** [os.path.splitext(path)[1].lower()] *)
Definition extension (path : string) : string :=
  lower (snd (Path.splitext path)).

(** [ETLPipeline.extract] *)
Definition extract (self : ETLPipeline) : M DataFrame :=
  logger_info (Extracting (source_path self)) ;;
  let file_extension := extension (source_path self) in
  try_except
    (data <-
       (if bool_decide (file_extension = ".csv") then
          read_csv (source_path self)
        else if bool_decide (file_extension = ".json") then
          read_json (source_path self)
        else if bool_decide (file_extension ∈ [".xlsx"; ".xls"]) then
          read_excel (source_path self)
        else
          raise (ValueError ("Unsupported file format: " +:+ file_extension))) ;;
     logger_info (Extracted (Pandas.len data)) ;;
     ret data)
    (λ e, logger_error (ExtractionFailed e) ;; raise e).

(** [ETLPipeline.transform]; [now] is
    [datetime.now().strftime('%Y-%m-%d %H:%M:%S')], read from the clock
    when the method runs.  The method does not use [self]. *)
Definition transform (now : string) (data : DataFrame) : M DataFrame :=
  logger_info Transforming ;;
  try_except
    (let data := Pandas.dropna data in
     cols <- lift (labels_lower lower (columns data)) ;;
     let data := Pandas.set_columns cols data in
     data <- lift (Pandas.setitem_scalar "etl_timestamp" (CStr now) data) ;;
     data <-
       (if negb (Pandas.contains "id" data) then
          lift (Pandas.setitem "id"
                  (Pandas.range 1 (Z.of_nat (Pandas.len data) + 1)) data)
        else ret data) ;;
     logger_info (Transformed (Pandas.len data)) ;;
     ret data)
    (λ e, logger_error (TransformationFailed e) ;; raise e).

(** [ETLPipeline.load] *)
Definition load (self : ETLPipeline) (data : DataFrame) : M bool :=
  logger_info (Loading (destination_path self)) ;;
  try_except
    (let file_extension := extension (destination_path self) in
     w <- get ;;
     Os.makedirs
       (Path.dirname (Path.abspath (cwd w) (destination_path self))) true ;;
     (if bool_decide (file_extension = ".csv") then
        to_csv data (destination_path self)
      else if bool_decide (file_extension = ".json") then
        to_json data (destination_path self)
      else if bool_decide (file_extension ∈ [".xlsx"; ".xls"]) then
        to_excel data (destination_path self)
      else
        raise (ValueError
                 ("Unsupported destination format: " +:+ file_extension))) ;;
     logger_info (Loaded (Pandas.len data) (destination_path self)) ;;
     ret true)
    (λ e, logger_error (LoadFailed e) ;; raise e).

(** [ETLPipeline.run] *)
Definition run (self : ETLPipeline) (now : string) : M bool :=
  try_except
    (logger_info PipelineStarting ;;
     raw_data <- extract self ;;
     transformed_data <- transform now raw_data ;;
     load self transformed_data ;;
     logger_info PipelineCompleted ;;
     ret true)
    (λ e, logger_error (PipelineFailed e) ;; ret false).

End Pipeline.

(** ** What the statements observe *)

(** A row is complete when none of its cells is missing. *)
Definition complete (r : list cell) : Prop := CNull ∉ r.

(** The rows of a frame that have no missing value, in the frame's order. *)
Definition surviving (d : DataFrame) : list (list cell) :=
  filter complete (rows d).

(** The cells at position [j], row by row. *)
Definition column (j : nat) (rs : list (list cell)) : list (option cell) :=
  (λ r : list cell, r !! j) <$> rs.

(** Column [j] carries the label [key]. *)
Definition labelled (key : string) (j : nat) (d : DataFrame) : Prop :=
  columns d !! j = Some (LStr key).

(** No label of the frame is [key] when case is ignored. *)
Definition no_column (lower : string → string) (key : string) (d : DataFrame)
  : Prop :=
  ∀ s, LStr s ∈ columns d → lower s ≠ key.

(** A string is lowercase when lower-casing leaves it as it is:
    [s.lower() == s]. *)
Definition lowercase (lower : string → string) (s : string) : Prop :=
  lower s = s.

(** What is used of [str.lower] where a statement depends on its values:
    lower-casing twice is lower-casing once; on a string of ASCII
    characters it is [Str.lower]; and lower-casing the ASCII letters first
    makes no difference. *)
Definition idempotent (lower : string → string) : Prop :=
  ∀ s, lower (lower s) = lower s.

Definition lowers_ascii (lower : string → string) : Prop :=
  ∀ s, Str.is_ascii s = true → lower s = Str.lower s.

Definition absorbs_ascii (lower : string → string) : Prop :=
  ∀ s, lower (Str.lower s) = lower s.

(** The frame has a column [id], and the values of every such column are
    pairwise distinct. *)
Definition unique_id (d : DataFrame) : Prop :=
  (∃ j, labelled "id" j d) ∧
  ∀ j, labelled "id" j d → NoDup (column j (rows d)).


Definition supported (ext : string) : Prop :=
  ext ∈ [".csv"; ".json"; ".xlsx"; ".xls"].

(** [p] is a directory of the tree, and so is every directory above it. *)
Definition is_dir (s : gmap (list string) node) (p : list string) : Prop :=
  p = [] ∨ s !! p = Some Dir.

Definition dirs_down_to (s : gmap (list string) node) (p : list string) : Prop :=
  ∀ q, q `prefix_of` p → is_dir s q.

(** ** Sample frames and a sample world *)

Module Sample.

(** The frame of the specification's example, with labels in upper case. *)
Definition people : DataFrame :=
  {| columns := [LStr "Name"; LStr "AGE"];
     rows := [[CStr "John"; CInt 28]; [CStr "Jane"; CNull]] |}.

(** A frame that has an [ID] column in which a value comes twice. *)
Definition tagged : DataFrame :=
  {| columns := [LStr "ID"; LStr "city"];
     rows := [[CInt 7; CStr "Pune"]; [CInt 9; CNull]; [CInt 7; CStr "Goa"]] |}.

Definition now : string := "2025-03-01 09:30:00".

(** A parser and a renderer that stand for pandas. *)
Definition parse (path content : string) : result DataFrame := Ok people.
Definition render (path : string) (data : DataFrame) : result string :=
  Ok "rendered".


(** The working directory [/home/etl] holds one file, [in.csv]. *)
Definition home : world :=
  {| cwd := ["home"; "etl"];
     fs := <[ ["home"] := Dir ]>
             (<[ ["home"; "etl"] := Dir ]>
                (<[ ["home"; "etl"; "in.csv"] := File "Name,AGE" ]> ∅));
     log := [] |}.


Definition job (source destination : string) : ETLPipeline :=
  {| source_path := source; destination_path := destination |}.

(** A frame read from a sheet whose second header cell is the number
    2024. *)
Definition yearly : DataFrame :=
  {| columns := [LStr "Region"; LInt 2024];
     rows := [[CStr "North"; CInt 12]; [CStr "South"; CInt 7]] |}.

Definition parse_yearly (path content : string) : result DataFrame :=
  Ok yearly.

(** A lower-casing that knows, beyond [A]..[Z], the capital letters of
    Latin-1, [U+00C0]..[U+00DE] without the sign [U+00D7]: in UTF-8 the
    byte 195 and then a byte from 128 to 158 other than 151; the small
    letter is the same with 32 added to the second byte, as [str.lower]
    has it. *)
Definition is_lead (c : ascii) : bool := (nat_of_ascii c =? 195)%nat.

Definition is_upper_latin (c : ascii) : bool :=
  (128 <=? nat_of_ascii c)%nat && (nat_of_ascii c <=? 158)%nat
  && negb (nat_of_ascii c =? 151)%nat.

Fixpoint lower_bytes (l : list ascii) : list ascii :=
  match l with
  | [] => []
  | c :: l' =>
      match l' with
      | x :: l'' =>
          if is_lead c && is_upper_latin x then
            c :: ascii_of_nat (nat_of_ascii x + 32) :: lower_bytes l''
          else Str.lower_char c :: lower_bytes l'
      | [] => [Str.lower_char c]
      end
  end.

Definition lower_latin (s : string) : string :=
  Str.of_chars (lower_bytes (Str.chars s)).

(** A frame with the label [ÉCOLE], in UTF-8. *)
Definition ecole : DataFrame :=
  {| columns := [LStr "Name"; LStr (String "195" (String "137" "COLE"))];
     rows := [[CStr "John"; CStr "Ampere"];
              [CStr "Jane"; CNull]] |}.

(** A frame that already has a column for the timestamp, in capitals. *)
Definition stamped : DataFrame :=
  {| columns := [LStr "ETL_Timestamp"; LStr "qty"];
     rows := [[CStr "yesterday"; CInt 3]; [CNull; CInt 4]; [CStr "today"; CInt 5]] |}.

End Sample.

(** * Facts *)


(** ** Strings *)

Lemma lower_char_idempotent c :
  Str.lower_char (Str.lower_char c) = Str.lower_char c.
Proof. destruct c as [[] [] [] [] [] [] [] []]; reflexivity. Qed.

Lemma lower_idempotent s : Str.lower (Str.lower s) = Str.lower s.
Proof.
  induction s as [|c s IH]; [done|].
  simpl. by rewrite lower_char_idempotent, IH.
Qed.

Lemma lower_chars s : Str.chars (Str.lower s) = Str.lower_char <$> Str.chars s.
Proof. induction s as [|c s IH]; [done|]. simpl. by rewrite IH. Qed.

(** [Str.lower] has what is used of [str.lower]. *)
Lemma ascii_lower_idempotent : idempotent Str.lower.
Proof. intros s. apply lower_idempotent. Qed.

Lemma ascii_lower_lowers_ascii : lowers_ascii Str.lower.
Proof. by intros s _. Qed.

Lemma ascii_lower_absorbs_ascii : absorbs_ascii Str.lower.
Proof. intros s. apply lower_idempotent. Qed.

(** So has the lower-casing of the samples, which knows the capital
    letters of Latin-1. *)
Lemma chars_of_chars l : Str.chars (Str.of_chars l) = l.
Proof. induction l as [|c l IH]; [done|]. simpl. by rewrite IH. Qed.

Lemma lower_bytes_cons c l :
  Sample.is_lead c = false →
  Sample.lower_bytes (c :: l) = Str.lower_char c :: Sample.lower_bytes l.
Proof. intros Hc. destruct l as [|x l]; [done|]. simpl. by rewrite Hc. Qed.

Lemma lower_char_not_lead c :
  Sample.is_lead c = false → Sample.is_lead (Str.lower_char c) = false.
Proof. destruct c as [[] [] [] [] [] [] [] []]; done. Qed.

Lemma lead_lower_char c : Sample.is_lead c = true → Str.lower_char c = c.
Proof. destruct c as [[] [] [] [] [] [] [] []]; done. Qed.

Lemma lower_char_not_upper_latin c :
  Sample.is_upper_latin c = false →
  Sample.is_upper_latin (Str.lower_char c) = false.
Proof. destruct c as [[] [] [] [] [] [] [] []]; done. Qed.

Lemma lead_not_upper_latin c :
  Sample.is_lead c = true → Sample.is_upper_latin c = false.
Proof. destruct c as [[] [] [] [] [] [] [] []]; done. Qed.

Lemma small_latin x :
  Sample.is_upper_latin x = true →
  let y := ascii_of_nat (nat_of_ascii x + 32) in
  Sample.is_lead y = false ∧ Sample.is_upper_latin y = false ∧
  Str.lower_char y = y.
Proof. destruct x as [[] [] [] [] [] [] [] []]; done. Qed.

(** The first byte of a lowered string is no second byte of a capital
    letter unless the first byte of the string was. *)
Lemma lower_bytes_head x l :
  Sample.is_upper_latin x = false →
  match Sample.lower_bytes (x :: l) with
  | y :: _ => Sample.is_upper_latin y = false
  | [] => False
  end.
Proof.
  intros Hx. destruct l as [|z l]; simpl.
  - by apply lower_char_not_upper_latin.
  - destruct (Sample.is_lead x && Sample.is_upper_latin z); [done|].
    by apply lower_char_not_upper_latin.
Qed.

Lemma lower_bytes_pair c x l :
  Sample.lower_bytes (c :: x :: l)
  = if Sample.is_lead c && Sample.is_upper_latin x
    then c :: ascii_of_nat (nat_of_ascii x + 32) :: Sample.lower_bytes l
    else Str.lower_char c :: Sample.lower_bytes (x :: l).
Proof. reflexivity. Qed.

Lemma lower_bytes_idempotent l :
  Sample.lower_bytes (Sample.lower_bytes l) = Sample.lower_bytes l.
Proof.
  cut (∀ n l, (length l ≤ n)%nat →
         Sample.lower_bytes (Sample.lower_bytes l) = Sample.lower_bytes l).
  { intros H. by apply (H (length l)). }
  clear l. induction n as [|n IH]; intros l Hn.
  { destruct l; [done | simpl in Hn; lia]. }
  destruct l as [|c [|x l]]; [done| |].
  - simpl. by rewrite lower_char_idempotent.
  - simpl in Hn. rewrite lower_bytes_pair.
    destruct (Sample.is_lead c) eqn:Hc; cbn [andb].
    + destruct (Sample.is_upper_latin x) eqn:Hx.
      * destruct (small_latin x Hx) as (Hy1 & Hy2 & Hy3).
        rewrite lower_bytes_pair, Hc, Hy2. cbn [andb].
        rewrite (lead_lower_char c Hc), lower_bytes_cons by done.
        rewrite Hy3, IH by lia. done.
      * rewrite (lead_lower_char c Hc).
        pose proof (lower_bytes_head x l Hx) as Hhead.
        pose proof (IH (x :: l) ltac:(simpl; lia)) as Hrec.
        destruct (Sample.lower_bytes (x :: l)) as [|y m] eqn:Hl; [done|].
        rewrite lower_bytes_pair, Hc, Hhead. cbn [andb].
        by rewrite (lead_lower_char c Hc), Hrec.
    + rewrite lower_bytes_cons by by apply lower_char_not_lead.
      rewrite IH by (simpl; lia).
      by rewrite lower_char_idempotent.
Qed.

Lemma lower_latin_idempotent : idempotent Sample.lower_latin.
Proof.
  intros s. unfold Sample.lower_latin.
  by rewrite chars_of_chars, lower_bytes_idempotent.
Qed.

Lemma ascii_not_lead c :
  (nat_of_ascii c <? 128)%nat = true → Sample.is_lead c = false.
Proof. destruct c as [[] [] [] [] [] [] [] []]; done. Qed.

Lemma lower_latin_lowers_ascii : lowers_ascii Sample.lower_latin.
Proof.
  intros s. unfold Sample.lower_latin, Str.is_ascii.
  induction s as [|c s IH]; [done|].
  cbn [Str.chars forallb]. intros [Hc Hs]%andb_true_iff.
  rewrite lower_bytes_cons by by apply ascii_not_lead.
  simpl. by rewrite IH.
Qed.

Example lower_latin_ecole :
  Sample.lower_latin (String "195" (String "137" "COLE"))
  = String "195" (String "169" "cole").
Proof. reflexivity. Qed.

(** ** Paths *)

Example splitext_csv :
  Path.splitext "data/source/my_data.csv" = ("data/source/my_data", ".csv").
Proof. reflexivity. Qed.

Example splitext_hidden : Path.splitext "data/.bashrc" = ("data/.bashrc", "").
Proof. reflexivity. Qed.

Example splitext_dotted_directory : Path.splitext "a.b/c" = ("a.b/c", "").
Proof. reflexivity. Qed.

Example splitext_last_dot : Path.splitext "x.tar.GZ" = ("x.tar", ".GZ").
Proof. reflexivity. Qed.

Example extension_lowered : extension Str.lower "Report.XLSX" = ".xlsx".
Proof. reflexivity. Qed.

Example abspath_relative :
  Path.abspath ["home"; "etl"] "out/./nested/../nested/result.json"
  = ["home"; "etl"; "out"; "nested"; "result.json"].
Proof. reflexivity. Qed.

Example abspath_absolute :
  Path.abspath ["home"; "etl"] "/tmp//x.csv" = ["tmp"; "x.csv"].
Proof. reflexivity. Qed.

Example dirname_bare_file :
  Path.dirname (Path.abspath ["home"; "etl"] "out.csv") = ["home"; "etl"].
Proof. reflexivity. Qed.

(** Reading a file that is not there is [FileNotFoundError]; reading below
    a regular file is [NotADirectoryError]; reading a directory is
    [IsADirectoryError]. *)
Example read_missing_file :
  fst (Os.read_file "gone.csv" Sample.home)
  = Raise (OSError FileNotFoundError ["home"; "etl"; "gone.csv"]).
Proof. vm_compute. reflexivity. Qed.

Example read_below_a_file :
  fst (Os.read_file "in.csv/part.csv" Sample.home)
  = Raise (OSError NotADirectoryError ["home"; "etl"; "in.csv"; "part.csv"]).
Proof. vm_compute. reflexivity. Qed.

Example read_a_directory :
  fst (Os.read_file "/home/etl" Sample.home)
  = Raise (OSError IsADirectoryError ["home"; "etl"]).
Proof. vm_compute. reflexivity. Qed.

(** ** Rows without a missing value *)

Lemma forallb_notna r : forallb Pandas.notna r = true ↔ complete r.
Proof.
  unfold complete. induction r as [|c r IH]; simpl.
  - split; [intros _ H; by apply elem_of_nil in H | done].
  - rewrite andb_true_iff, IH, not_elem_of_cons.
    destruct c; simpl; intuition congruence.
Qed.

Lemma dropna_surviving d : rows (Pandas.dropna d) = surviving d.
Proof.
  unfold surviving. simpl. induction (rows d) as [|r rs IH]; [done|].
  simpl. rewrite filter_cons. destruct (forallb Pandas.notna r) eqn:E.
  - apply forallb_notna in E. rewrite decide_True by done. by rewrite IH.
  - rewrite decide_False; [done|]. intros H. apply forallb_notna in H. congruence.
Qed.

(** ** Assigning a column *)

Lemma contains_spec key d : Pandas.contains key d = true ↔ LStr key ∈ columns d.
Proof. unfold Pandas.contains. apply bool_decide_eq_true. Qed.

Lemma put_lookup cols key v r j :
  length r = length cols →
  Pandas.put cols key v r !! j
  = if bool_decide (cols !! j = Some (LStr key)) then Some v else r !! j.
Proof.
  intros Hlen. unfold Pandas.put. rewrite list_lookup_imap.
  case_bool_decide as Hj.
  - destruct (lookup_lt_is_Some_2 r j) as [c ->]; [|done].
    rewrite Hlen. by eapply lookup_lt_Some.
  - by destruct (r !! j).
Qed.

Lemma setitem_Ok key vs d d' :
  well_formed d →
  Pandas.setitem key vs d = Ok d' →
  length vs = length (rows d) ∧
  length (rows d') = length (rows d) ∧
  well_formed d' ∧
  columns d' = columns d ++ (if Pandas.contains key d then [] else [LStr key]) ∧
  ∀ i r, rows d !! i = Some r →
    ∃ v r', vs !! i = Some v ∧ rows d' !! i = Some r' ∧
      ∀ j, r' !! j = if bool_decide (columns d' !! j = Some (LStr key))
                     then Some v else r !! j.
Proof.
  intros Hwf. unfold Pandas.setitem, Pandas.len.
  destruct (length vs =? length (rows d))%nat eqn:Hlen; simpl; [|discriminate].
  apply Nat.eqb_eq in Hlen.
  destruct (Pandas.contains key d) eqn:Hin; intros [= <-]; simpl.
  - rewrite app_nil_r, length_zip_with, Hlen, Nat.min_id.
    repeat split; try done.
    + apply Forall_forall. intros r' Hr'. simpl.
      apply list_elem_of_lookup in Hr' as [i Hi].
      apply lookup_zip_with_Some in Hi as (v & r & -> & _ & Hr).
      unfold Pandas.put. rewrite length_imap.
      eapply (Forall_lookup_1 _ _ _ _ Hwf Hr).
    + intros i r Hr.
      destruct (lookup_lt_is_Some_2 vs i) as [v Hv].
      { rewrite Hlen. by eapply lookup_lt_Some. }
      exists v, (Pandas.put (columns d) key v r). split; [done|]. split.
      * apply lookup_zip_with_Some. eauto.
      * intros j. apply put_lookup. eapply (Forall_lookup_1 _ _ _ _ Hwf Hr).
  - assert (LStr key ∉ columns d) as Hnot.
    { intros Hc. apply contains_spec in Hc. congruence. }
    rewrite length_zip_with, Hlen, Nat.min_id.
    repeat split; try done.
    + apply Forall_forall. intros r' Hr'. simpl.
      apply list_elem_of_lookup in Hr' as [i Hi].
      apply lookup_zip_with_Some in Hi as (r & v & -> & Hr & _).
      rewrite !length_app. simpl.
      by rewrite (Forall_lookup_1 _ _ _ _ Hwf Hr).
    + intros i r Hr.
      destruct (lookup_lt_is_Some_2 vs i) as [v Hv].
      { rewrite Hlen. by eapply lookup_lt_Some. }
      exists v, (r ++ [v]). split; [done|]. split.
      * apply lookup_zip_with_Some. eauto.
      * intros j. pose proof (Forall_lookup_1 _ _ _ _ Hwf Hr) as Hr_len.
        simpl in Hr_len.
        destruct (decide (j < length r)%nat) as [Hlt|Hge].
        -- rewrite !lookup_app_l by lia. rewrite bool_decide_eq_false_2; [done|].
           intros Hj. apply Hnot. apply list_elem_of_lookup. by exists j.
        -- destruct (decide (j = length r)) as [->|Hne].
           ++ rewrite list_lookup_middle by done.
              rewrite Hr_len, list_lookup_middle by done.
              by rewrite bool_decide_eq_true_2.
           ++ rewrite (lookup_ge_None_2 r j) by lia.
              rewrite (lookup_ge_None_2 (r ++ [v]) j)
                by (rewrite length_app; simpl; lia).
              rewrite bool_decide_eq_false_2; [done|].
              rewrite lookup_ge_None_2; [done|]. rewrite length_app; simpl; lia.
Qed.

(** ** Labels *)

Section Lower.

Variable lower : string → string.

Lemma labels_lower_Ok cols cols' :
  labels_lower lower cols = Ok cols' →
  ∃ names, cols = LStr <$> names ∧ cols' = (LStr ∘ lower) <$> names.
Proof.
  revert cols'. induction cols as [|l cols IH]; intros cols' H; simpl in H.
  - exists []. by inversion H.
  - destruct l as [s|z]; simpl in H; [|discriminate].
    destruct (labels_lower lower cols) as [ls|e]; [|discriminate].
    destruct (IH ls eq_refl) as (names & -> & ->).
    exists (s :: names). by inversion H.
Qed.

Lemma labels_lower_strings names :
  labels_lower lower (LStr <$> names) = Ok ((LStr ∘ lower) <$> names).
Proof.
  induction names as [|s names IH]; [done|].
  rewrite !fmap_cons. cbn [labels_lower label_lower]. by rewrite IH.
Qed.

Lemma labels_lower_Raise cols e :
  labels_lower lower cols = Raise e → ∃ z, LInt z ∈ cols.
Proof.
  induction cols as [|l cols IH]; simpl; [discriminate|].
  destruct l as [s|z]; simpl.
  - destruct (labels_lower lower cols); [discriminate|].
    intros H. destruct IH as [z Hz]; [by inversion H|].
    exists z. apply elem_of_cons. by right.
  - intros _. exists z. apply elem_of_cons. by left.
Qed.

(** ** The steps of [transform] *)

Lemma transform_inv now d w d' w' :
  transform lower now d w = (Ok d', w') →
  ∃ cols d1,
    labels_lower lower (columns d) = Ok cols ∧
    Pandas.setitem_scalar "etl_timestamp" (CStr now)
      (Pandas.set_columns cols (Pandas.dropna d)) = Ok d1 ∧
    (if Pandas.contains "id" d1 then d' = d1
     else Pandas.setitem "id"
            (Pandas.range 1 (Z.of_nat (Pandas.len d1) + 1)) d1 = Ok d').
Proof.
  unfold transform, bind, try_except, logger_info, logger_error, lift,
    ret, raise.
  cbn [Pandas.dropna columns].
  destruct (labels_lower lower (columns d)) as [cols|e]; [|discriminate].
  destruct (Pandas.setitem_scalar _ _ _) as [d1|msg] eqn:Hts; [|discriminate].
  intros H. exists cols, d1. split; [done|]. split; [done|].
  destruct (Pandas.contains "id" d1); simpl in *.
  - by inversion H.
  - destruct (Pandas.setitem "id" _ d1); simpl in H; by inversion H.
Qed.

Lemma range_lookup n i v :
  Pandas.range 1 (Z.of_nat n + 1) !! i = Some v → v = CInt (1 + Z.of_nat i).
Proof.
  unfold Pandas.range. rewrite list_lookup_fmap. intros H.
  destruct (seqZ 1 (Z.of_nat n + 1 - 1) !! i) as [z|] eqn:Hz; [|done].
  apply lookup_seqZ in Hz as [-> _]. by inversion H.
Qed.

Lemma lookup_snoc_label (cols : list label) (l k : label) j :
  l ≠ k → (cols ++ [k]) !! j = Some l ↔ cols !! j = Some l.
Proof.
  intros Hne. destruct (decide (j < length cols)%nat) as [Hlt|Hge].
  - by rewrite lookup_app_l by lia.
  - rewrite (lookup_ge_None_2 cols j) by lia.
    destruct (decide (j = length cols)) as [->|Hj].
    + rewrite list_lookup_middle by done. split; [intros [= ->]; done | done].
    + rewrite lookup_ge_None_2; [done|]. rewrite length_app; simpl; lia.
Qed.

Lemma timestamp_not_id : LStr "etl_timestamp" ≠ LStr "id".
Proof. discriminate. Qed.

Lemma transform_Ok now d w d' w' :
  well_formed d →
  transform lower now d w = (Ok d', w') →
  ∃ names,
    columns d = LStr <$> names ∧
    let cols := (LStr ∘ lower) <$> names in
    columns d' = cols
      ++ (if decide (LStr "etl_timestamp" ∈ cols) then [] else [LStr "etl_timestamp"])
      ++ (if decide (LStr "id" ∈ cols) then [] else [LStr "id"]) ∧
    well_formed d' ∧
    length (rows d') = length (surviving d) ∧
    ∀ i r, surviving d !! i = Some r →
      ∃ r', rows d' !! i = Some r' ∧
        ∀ j, r' !! j =
          if bool_decide (columns d' !! j = Some (LStr "etl_timestamp"))
          then Some (CStr now)
          else if bool_decide ((LStr "id" ∉ cols)
                               ∧ columns d' !! j = Some (LStr "id"))
               then Some (CInt (1 + Z.of_nat i))
               else r !! j.
Proof.
  intros Hwf H. apply transform_inv in H as (cols & d1 & Hcols & Hts & Hid).
  apply labels_lower_Ok in Hcols as (names & Hnames & ->).
  exists names. split; [done|]. cbn zeta.
  set (cols := (LStr ∘ lower) <$> names) in *.
  set (d0 := Pandas.set_columns cols (Pandas.dropna d)) in *.
  assert (well_formed d0) as Hwf0.
  { unfold well_formed, d0. simpl. apply Forall_forall. intros r Hr.
    apply list_elem_of_In, filter_In in Hr as [Hr _]. apply list_elem_of_In in Hr.
    rewrite (proj1 (Forall_forall _ _) Hwf r Hr), Hnames.
    unfold cols. by rewrite !length_fmap. }
  assert (rows d0 = surviving d) as Hrows0 by apply dropna_surviving.
  apply setitem_Ok in Hts as (_ & Hlen1 & Hwf1 & Hcols1 & Hrows1); [|done].
  assert (Pandas.contains "etl_timestamp" d0
          = bool_decide (LStr "etl_timestamp" ∈ cols)) as Hc0 by done.
  assert (Pandas.contains "id" d1 = bool_decide (LStr "id" ∈ cols)) as Hc1.
  { unfold Pandas.contains. rewrite Hcols1. simpl.
    apply bool_decide_ext. rewrite elem_of_app.
    destruct (Pandas.contains _ d0).
    - rewrite elem_of_nil. tauto.
    - rewrite list_elem_of_singleton. split; [intros [?|[=]]; done | tauto]. }
  rewrite Hc0 in Hcols1. rewrite Hc1 in Hid. simpl in Hcols1.
  assert (∀ i r, surviving d !! i = Some r →
            ∃ r1, rows d1 !! i = Some r1 ∧
              ∀ j, r1 !! j =
                if bool_decide (columns d1 !! j = Some (LStr "etl_timestamp"))
                then Some (CStr now) else r !! j) as Hstamp.
  { intros i r Hr. rewrite <- Hrows0 in Hr.
    destruct (Hrows1 i r Hr) as (v & r1 & Hv & Hr1 & Hcells).
    apply lookup_replicate in Hv as [-> _]. eauto. }
  case_bool_decide as Hin.
  - subst d'. rewrite (decide_True _ _ Hin), app_nil_r.
    rewrite <- Hrows0 at 1.
    split.
    { rewrite Hcols1.
      by case_bool_decide; [rewrite decide_True | rewrite decide_False]. }
    split; [done|]. split; [done|].
    intros i r Hr. destruct (Hstamp i r Hr) as (r1 & Hr1 & Hcells).
    exists r1. split; [done|]. intros j. rewrite Hcells.
    destruct (bool_decide (columns d1 !! j = _)); [done|].
    rewrite bool_decide_eq_false_2; [done | tauto].
  - rewrite (decide_False _ _ Hin).
    apply setitem_Ok in Hid as (_ & Hlen2 & Hwf2 & Hcols2 & Hrows2); [|done].
    rewrite Hc1 in Hcols2.
    split.
    { rewrite Hcols2, Hcols1, <- app_assoc.
      by case_bool_decide; [rewrite decide_True | rewrite decide_False]. }
    split; [done|]. split; [by rewrite Hlen2, Hlen1, Hrows0|].
    intros i r Hr. destruct (Hstamp i r Hr) as (r1 & Hr1 & Hcells).
    destruct (Hrows2 i r1 Hr1) as (v & r' & Hv & Hr' & Hcells').
    apply range_lookup in Hv as ->.
    exists r'. split; [done|]. intros j. rewrite Hcells', Hcells.
    rewrite Hcols2.
    rewrite (bool_decide_ext _ _ (lookup_snoc_label (columns d1) _ _ j timestamp_not_id)).
    destruct (bool_decide (columns d1 !! j = _)) eqn:Hlabel.
    + apply bool_decide_eq_true in Hlabel.
      rewrite bool_decide_eq_false_2; [done|].
      rewrite lookup_app_l by (by eapply lookup_lt_Some).
      rewrite Hlabel. discriminate.
    + apply bool_decide_eq_false in Hlabel.
      destruct (bool_decide ((columns d1 ++ _) !! j = _)) eqn:Hj.
      * apply bool_decide_eq_true in Hj. by rewrite bool_decide_eq_true_2.
      * apply bool_decide_eq_false in Hj. rewrite bool_decide_eq_false_2; [done|].
        tauto.
Qed.

Lemma setitem_same_length key vs d :
  length vs = Pandas.len d → ∃ d', Pandas.setitem key vs d = Ok d'.
Proof.
  intros Hlen. unfold Pandas.setitem.
  rewrite (proj2 (Nat.eqb_eq _ _) Hlen). simpl.
  destruct (Pandas.contains key d); eauto.
Qed.

Lemma range_length n : length (Pandas.range 1 (Z.of_nat n + 1)) = n.
Proof. unfold Pandas.range. rewrite length_fmap, length_seqZ. lia. Qed.

(** [transform] returns a frame whenever every label is a string ... *)
Lemma transform_returns now d w :
  (∀ l, l ∈ columns d → ∃ s, l = LStr s) →
  ∃ d' w', transform lower now d w = (Ok d', w').
Proof.
  intros Hstr.
  assert (∃ names, columns d = LStr <$> names) as [names Hnames].
  { induction (columns d) as [|l cols IH]; [by exists []|].
    destruct (Hstr l) as [s ->]; [apply elem_of_cons; by left|].
    destruct IH as [names ->].
    - intros l Hl. apply Hstr, elem_of_cons. by right.
    - by exists (s :: names). }
  unfold transform, bind, try_except, logger_info, logger_error, lift,
    ret, raise.
  cbn [Pandas.dropna columns]. rewrite Hnames, labels_lower_strings.
  destruct (setitem_same_length "etl_timestamp"
              (replicate (Pandas.len (Pandas.set_columns
                 ((LStr ∘ lower) <$> names) (Pandas.dropna d))) (CStr now))
              (Pandas.set_columns ((LStr ∘ lower) <$> names) (Pandas.dropna d)))
    as [d1 Hd1]; [apply length_replicate|].
  unfold Pandas.setitem_scalar. cbn [Pandas.dropna columns] in Hd1 |- *.
  rewrite Hd1.
  destruct (Pandas.contains "id" d1); simpl; [eauto|].
  destruct (setitem_same_length "id"
              (Pandas.range 1 (Z.of_nat (Pandas.len d1) + 1)) d1) as [d2 ->];
    [apply range_length|].
  simpl. eauto.
Qed.

(** ... and raises when one is not. *)
Lemma transform_raises now d w z :
  LInt z ∈ columns d →
  ∃ msg w', transform lower now d w = (Raise (AttributeError msg), w').
Proof.
  intros Hz.
  unfold transform, bind, try_except, logger_info, logger_error, lift,
    ret, raise.
  cbn [Pandas.dropna columns].
  destruct (labels_lower lower (columns d)) as [cols|e] eqn:Hcols.
  - apply labels_lower_Ok in Hcols as (names & Hnames & _).
    rewrite Hnames in Hz. apply list_elem_of_fmap in Hz as (s & [=] & _).
  - simpl. assert (∃ msg, e = AttributeError msg) as [msg ->]; [|eauto].
    clear Hz. revert e Hcols. induction (columns d) as [|l cols IH]; intros e He.
    + discriminate.
    + simpl in He. destruct l as [s|z']; simpl in He.
      * destruct (labels_lower lower cols); [discriminate|].
        inversion He; subst. by apply IH.
      * inversion He. eauto.
Qed.

(** ** Rows and columns of the transformed frame *)

Lemma lowered_no_column names key d :
  columns d = LStr <$> names →
  LStr key ∉ (LStr ∘ lower) <$> names ↔ no_column lower key d.
Proof.
  intros Hnames. unfold no_column. rewrite Hnames. split.
  - intros Hkey s Hs Hlow. apply Hkey.
    apply list_elem_of_fmap in Hs as (s' & [= <-] & Hs).
    apply list_elem_of_fmap. exists s. by rewrite <- Hlow.
  - intros Hno Hkey. apply list_elem_of_fmap in Hkey as (s & [= Hlow] & Hs).
    apply (Hno s); [|done]. by apply list_elem_of_fmap_2.
Qed.

(** Row [i] of the transformed frame comes from surviving row [i]: its
    timestamp cell is [now], its cell in a new [id] column is [i + 1], its
    other cells are the cells of that row. *)
Lemma transformed_row now d w d' w' i r' :
  well_formed d →
  transform lower now d w = (Ok d', w') →
  rows d' !! i = Some r' →
  ∃ r, surviving d !! i = Some r ∧ complete r ∧
    ∀ j,
      (labelled "etl_timestamp" j d' → r' !! j = Some (CStr now)) ∧
      (labelled "id" j d' → no_column lower "id" d →
       r' !! j = Some (CInt (1 + Z.of_nat i))) ∧
      (¬ labelled "etl_timestamp" j d' →
       ¬ (labelled "id" j d' ∧ no_column lower "id" d) →
       r' !! j = r !! j).
Proof.
  intros Hwf H Hr'.
  destruct (transform_Ok _ _ _ _ _ Hwf H)
    as (names & Hnames & Hcols & _ & Hlen & Hrows).
  destruct (lookup_lt_is_Some_2 (surviving d) i) as [r Hr].
  { rewrite <- Hlen. by eapply lookup_lt_Some. }
  exists r. split; [done|]. split.
  { apply list_elem_of_lookup_2 in Hr. unfold surviving in Hr.
    by apply list_elem_of_filter in Hr as [? _]. }
  destruct (Hrows i r Hr) as (r'' & Hr'' & Hcells).
  assert (r'' = r') as -> by congruence.
  pose proof (lowered_no_column names "id" d Hnames) as Hno.
  intros j. rewrite Hcells. unfold labelled. repeat split.
  - intros Hts. by rewrite bool_decide_eq_true_2.
  - intros Hid Hnone. rewrite bool_decide_eq_false_2 by (rewrite Hid; discriminate).
    rewrite bool_decide_eq_true_2; [done|]. tauto.
  - intros Hts Hid. rewrite bool_decide_eq_false_2 by done.
    rewrite bool_decide_eq_false_2; [done|]. tauto.
Qed.

Lemma transformed_length now d w d' w' :
  well_formed d →
  transform lower now d w = (Ok d', w') →
  length (rows d') = length (surviving d).
Proof.
  intros Hwf H.
  by destruct (transform_Ok _ _ _ _ _ Hwf H) as (_ & _ & _ & _ & Hlen & _).
Qed.

(** The labels of the transformed frame, read off the labels of the input:
    the lowered labels in place, then [etl_timestamp] and [id] when the
    lowered labels lack them. *)
Lemma transformed_label now d w d' w' j :
  well_formed d →
  transform lower now d w = (Ok d', w') →
  (∀ s, columns d !! j = Some (LStr s) →
        columns d' !! j = Some (LStr (lower s))) ∧
  (∀ l, columns d' !! j = Some l →
        (∃ s, columns d !! j = Some (LStr s) ∧ l = LStr (lower s)) ∨
        (length (columns d) ≤ j)%nat ∧
        (l = LStr "etl_timestamp" ∧ no_column lower "etl_timestamp" d ∨
         l = LStr "id" ∧ no_column lower "id" d)).
Proof.
  intros Hwf H.
  destruct (transform_Ok _ _ _ _ _ Hwf H) as (names & Hnames & Hcols & _).
  cbn zeta in Hcols. rewrite Hcols.
  pose proof (lowered_no_column names "etl_timestamp" d Hnames) as Hts.
  pose proof (lowered_no_column names "id" d Hnames) as Hid.
  rewrite Hnames. clear Hcols. split.
  - intros s Hs. rewrite list_lookup_fmap in Hs.
    destruct (names !! j) as [s'|] eqn:Hj; [|done].
    injection Hs as ->.
    rewrite lookup_app_l.
    + by rewrite list_lookup_fmap, Hj.
    + rewrite length_fmap. by eapply lookup_lt_Some.
  - intros l Hl. rewrite !list_lookup_fmap.
    destruct (names !! j) as [s|] eqn:Hj.
    + left. exists s. split; [done|].
      rewrite lookup_app_l in Hl.
      * rewrite list_lookup_fmap, Hj in Hl. by injection Hl as <-.
      * rewrite length_fmap. by eapply lookup_lt_Some.
    + right. apply lookup_ge_None in Hj. rewrite length_fmap. split; [done|].
      rewrite lookup_app_r in Hl by (rewrite length_fmap; lia).
      apply list_elem_of_lookup_2, elem_of_app in Hl as [Hl|Hl].
      * destruct (decide (LStr "etl_timestamp" ∈ _)) as [|Hnot] in Hl.
        { by apply elem_of_nil in Hl. }
        apply list_elem_of_singleton in Hl. left. tauto.
      * destruct (decide (LStr "id" ∈ _)) as [|Hnot] in Hl.
        { by apply elem_of_nil in Hl. }
        apply list_elem_of_singleton in Hl. right. tauto.
Qed.

Lemma transformed_has_columns now d w d' w' :
  well_formed d →
  transform lower now d w = (Ok d', w') →
  (∃ j, labelled "etl_timestamp" j d') ∧ (∃ j, labelled "id" j d').
Proof.
  intros Hwf H.
  destruct (transform_Ok _ _ _ _ _ Hwf H) as (names & _ & Hcols & _).
  cbn zeta in Hcols. unfold labelled. rewrite Hcols.
  split; apply list_elem_of_lookup; rewrite !elem_of_app.
  - destruct (decide (LStr "etl_timestamp" ∈ _)); [by left|].
    right; left. by apply list_elem_of_singleton.
  - destruct (decide (LStr "id" ∈ _)); [by left|].
    right; right. by apply list_elem_of_singleton.
Qed.

(** The labels [transform] writes itself are ASCII and lowercase. *)
Lemma etl_timestamp_lowercase :
  lowers_ascii lower → lowercase lower "etl_timestamp".
Proof. intros Hascii. unfold lowercase. by rewrite Hascii. Qed.

Lemma id_lowercase : lowers_ascii lower → lowercase lower "id".
Proof. intros Hascii. unfold lowercase. by rewrite Hascii. Qed.

(** The values of a new [id] column are [1], [2], ... in row order. *)
Lemma id_synthesized now d w d' w' j :
  well_formed d →
  transform lower now d w = (Ok d', w') →
  no_column lower "id" d →
  labelled "id" j d' →
  column j (rows d')
  = (Some ∘ CInt) <$> seqZ 1 (Z.of_nat (length (surviving d))).
Proof.
  intros Hwf H Hno Hj. apply list_eq. intros i.
  unfold column. rewrite !list_lookup_fmap.
  destruct (rows d' !! i) as [r'|] eqn:Hr'; simpl.
  - destruct (transformed_row _ _ _ _ _ _ _ Hwf H Hr') as (r & Hr & _ & Hcells).
    destruct (Hcells j) as (_ & Hid & _). rewrite Hid by done.
    rewrite lookup_seqZ_lt; [done|].
    apply lookup_lt_Some in Hr. lia.
  - apply lookup_ge_None in Hr'.
    rewrite (transformed_length _ _ _ _ _ Hwf H) in Hr'.
    rewrite lookup_seqZ_ge; [done|]. lia.
Qed.

(** An [id] column of the input keeps its place and the values of the
    surviving rows; no other [id] column appears. *)
Lemma id_preserved now d w d' w' j :
  well_formed d →
  transform lower now d w = (Ok d', w') →
  ¬ no_column lower "id" d →
  labelled "id" j d' →
  (∃ s, columns d !! j = Some (LStr s) ∧ lower s = "id") ∧
  column j (rows d') = column j (surviving d).
Proof.
  intros Hwf H Hno Hj. split.
  - destruct (proj2 (transformed_label _ _ _ _ _ j Hwf H) _ Hj)
      as [(s & Hs & [= Hlow])|(_ & [[[=] _]|[_ ?]])]; [eauto | done].
  - apply list_eq. intros i. unfold column. rewrite !list_lookup_fmap.
    destruct (rows d' !! i) as [r'|] eqn:Hr'; simpl.
    + destruct (transformed_row _ _ _ _ _ _ _ Hwf H Hr') as (r & Hr & _ & Hcells).
      rewrite Hr. simpl. f_equal.
      apply (Hcells j); [|tauto].
      unfold labelled in *. rewrite Hj. discriminate.
    + apply lookup_ge_None in Hr'.
      rewrite (transformed_length _ _ _ _ _ Hwf H) in Hr'.
      by rewrite (lookup_ge_None_2 (surviving d) i).
Qed.

(** * The properties of the specification *)

(** C1: after [transform], no row of the frame has a missing cell in any
    column, every column label is a lowercase string, one that [str.lower]
    leaves as it is, and the frame has a timestamp column that holds the
    same value, the time [now] of the transformation, in every row.  Of
    [str.lower] this uses that lower-casing twice is lower-casing once and
    that on ASCII strings it is the lower-casing of [A]..[Z]. *)
Theorem transform_clean now d w d' w' :
  idempotent lower →
  lowers_ascii lower →
  well_formed d →
  transform lower now d w = (Ok d', w') →
  (∀ r, r ∈ rows d' → CNull ∉ r) ∧
  (∀ l, l ∈ columns d' → ∃ s, l = LStr s ∧ lowercase lower s) ∧
  (∃ j, labelled "etl_timestamp" j d') ∧
  (∀ j r, labelled "etl_timestamp" j d' → r ∈ rows d' →
          r !! j = Some (CStr now)).
Proof.
  intros Hidem Hascii Hwf H. repeat split.
  - intros r' Hr' Hnull.
    apply list_elem_of_lookup in Hr' as [i Hr'].
    apply list_elem_of_lookup in Hnull as [j Hnull].
    destruct (transformed_row _ _ _ _ _ _ _ Hwf H Hr') as (r & _ & Hr & Hcells).
    destruct (Hcells j) as (Hts & Hid & Hother).
    destruct (decide (columns d' !! j = Some (LStr "etl_timestamp"))) as [Hj|Hj].
    { rewrite Hts in Hnull by done. discriminate. }
    destruct (decide (columns d' !! j = Some (LStr "id"))) as [Hj'|Hj'].
    + destruct (proj2 (transformed_label _ _ _ _ _ j Hwf H) _ Hj')
        as [(s & Hs & [= Hlow])|(_ & [[[=] _]|[_ Hno]])].
      * rewrite Hother in Hnull; [|done|].
        -- apply Hr. by eapply list_elem_of_lookup_2.
        -- intros [_ Hno]. apply (Hno s); [|done].
           by eapply list_elem_of_lookup_2.
      * rewrite Hid in Hnull by done. discriminate.
    + rewrite Hother in Hnull; [|done|tauto].
      apply Hr. by eapply list_elem_of_lookup_2.
  - intros l Hl. apply list_elem_of_lookup in Hl as [j Hl].
    destruct (proj2 (transformed_label _ _ _ _ _ j Hwf H) _ Hl)
      as [(s & _ & ->)|(_ & [[-> _]|[-> _]])]; eexists; split; try done.
    + apply Hidem.
    + by apply etl_timestamp_lowercase.
    + by apply id_lowercase.
  - apply (transformed_has_columns _ _ _ _ _ Hwf H).
  - intros j r' Hj Hr'. apply list_elem_of_lookup in Hr' as [i Hr'].
    destruct (transformed_row _ _ _ _ _ _ _ Hwf H Hr') as (r & _ & _ & Hcells).
    by apply (Hcells j).
Qed.

(** C3: when no label of the input is [id], whatever the case of its
    letters, the [id] column of the transformed frame holds [1], ..., [N]
    in row order, [N] being the number of rows left once the rows with a
    missing value are removed. *)
Theorem transform_numbers_rows now d w d' w' :
  well_formed d →
  no_column lower "id" d →
  transform lower now d w = (Ok d', w') →
  (∃ j, labelled "id" j d') ∧
  ∀ j, labelled "id" j d' →
    column j (rows d')
    = (Some ∘ CInt) <$> seqZ 1 (Z.of_nat (length (surviving d))).
Proof.
  intros Hwf Hno H. split.
  - apply (transformed_has_columns _ _ _ _ _ Hwf H).
  - intros j Hj. by eapply id_synthesized.
Qed.

Lemma surviving_all d : Forall complete (rows d) → surviving d = rows d.
Proof.
  unfold surviving. induction 1 as [|r rs Hr _ IH]; [done|].
  by rewrite filter_cons_True, IH.
Qed.

(** C4: an [id] column of the input, whatever the case of its label, stays
    where it is, is labelled [id], and holds for every surviving row the
    value that row had: nothing is renumbered or overwritten, and no second
    [id] column is added. *)
Theorem transform_preserves_ids now d w d' w' j s :
  well_formed d →
  transform lower now d w = (Ok d', w') →
  columns d !! j = Some (LStr s) →
  lower s = "id" →
  labelled "id" j d' ∧
  column j (rows d') = column j (surviving d) ∧
  (Forall complete (rows d) → column j (rows d') = column j (rows d)) ∧
  (∀ j', labelled "id" j' d' →
         ∃ s', columns d !! j' = Some (LStr s') ∧ lower s' = "id").
Proof.
  intros Hwf H Hs Hlow.
  assert (¬ no_column lower "id" d) as Hno.
  { intros Hno. apply (Hno s); [|done]. by eapply list_elem_of_lookup_2. }
  assert (labelled "id" j d') as Hj.
  { unfold labelled. rewrite <- Hlow.
    by apply (transformed_label _ _ _ _ _ j Hwf H). }
  destruct (id_preserved _ _ _ _ _ _ Hwf H Hno Hj) as [_ Hcol].
  repeat split; try done.
  - intros Hall. by rewrite Hcol, surviving_all.
  - intros j' Hj'. by destruct (id_preserved _ _ _ _ _ _ Hwf H Hno Hj').
Qed.

Lemma NoDup_ids n : NoDup ((Some ∘ CInt) <$> seqZ 1 n).
Proof.
  apply NoDup_fmap_2; [|apply NoDup_seqZ].
  intros x y [=]. done.
Qed.

(** C2, as the code has it: the transformed frame has an [id] column; a
    new one, made when no label of the input is [id] in any case, holds
    pairwise distinct values; one that was in the input holds the values
    the surviving rows had there, distinct or not. *)
Theorem transform_id_values now d w d' w' :
  well_formed d →
  transform lower now d w = (Ok d', w') →
  (∃ j, labelled "id" j d') ∧
  (no_column lower "id" d → unique_id d') ∧
  (¬ no_column lower "id" d →
   ∀ j, labelled "id" j d' → column j (rows d') = column j (surviving d)).
Proof.
  intros Hwf H.
  pose proof (proj2 (transformed_has_columns _ _ _ _ _ Hwf H)) as Hex.
  repeat split; try done.
  - intros j Hj. rewrite (id_synthesized _ _ _ _ _ _ Hwf H); [|done..].
    apply NoDup_ids.
  - intros Hno j Hj. by apply (id_preserved _ _ _ _ _ _ Hwf H Hno Hj).
Qed.

(** ** The order of the rows *)

(** The positions of the elements of a list that pass a filter: they are
    increasing, and the filtered list reads the list at these positions. *)
Lemma filter_positions {A} (P : A → Prop) `{!∀ x, Decision (P x)} (l : list A) :
  ∃ js : list nat,
    length js = length (filter P l) ∧
    (∀ a b ja jb, js !! a = Some ja → js !! b = Some jb →
                  (a < b)%nat → (ja < jb)%nat) ∧
    (∀ j, j ∈ js ↔ ∃ x, l !! j = Some x ∧ P x) ∧
    (∀ k j, js !! k = Some j → filter P l !! k = l !! j).
Proof.
  induction l as [|x l (js & Hlen & Hmono & Hmem & Hlook)].
  - exists []. repeat split; try done.
    + intros Hj. by apply elem_of_nil in Hj.
    + intros (x & Hx & _). by rewrite lookup_nil in Hx.
  - assert (∀ j, j ∈ S <$> js ↔ ∃ j', j = S j' ∧ ∃ y, l !! j' = Some y ∧ P y)
      as Hmem'.
    { intros j. rewrite list_elem_of_fmap. split.
      - intros (j' & -> & Hj'). exists j'. split; [done|]. by apply Hmem.
      - intros (j' & -> & Hj'). exists j'. split; [done|]. by apply Hmem. }
    assert (∀ a b ja jb, (S <$> js) !! a = Some ja → (S <$> js) !! b = Some jb →
                         (a < b)%nat → (ja < jb)%nat) as Hmono'.
    { intros a b ja jb Ha Hb Hab.
      apply list_lookup_fmap_Some in Ha as (ja' & -> & Ha).
      apply list_lookup_fmap_Some in Hb as (jb' & -> & Hb).
      pose proof (Hmono a b ja' jb' Ha Hb Hab). lia. }
    destruct (decide (P x)) as [Hx|Hx].
    + exists (0%nat :: (S <$> js)). rewrite filter_cons_True by done.
      repeat split.
      * simpl. by rewrite length_fmap, Hlen.
      * intros [|a] [|b] ja jb Ha Hb Hab; simpl in *; try lia.
        -- injection Ha as <-.
           apply list_lookup_fmap_Some in Hb as (jb' & -> & _). lia.
        -- apply (Hmono' a b); [done..|lia].
      * intros Hj. apply elem_of_cons in Hj as [->|Hj]; [by exists x|].
        apply Hmem' in Hj as (j' & -> & Hj'). done.
      * intros (y & Hy & HPy). destruct j as [|j'].
        -- apply elem_of_cons. by left.
        -- apply elem_of_cons. right. apply Hmem'. eauto.
      * intros [|k] j Hk; simpl in Hk.
        -- by injection Hk as <-.
        -- apply list_lookup_fmap_Some in Hk as (j' & -> & Hk). simpl. eauto.
    + exists (S <$> js). rewrite filter_cons_False by done.
      repeat split.
      * by rewrite length_fmap.
      * done.
      * intros Hj. apply Hmem' in Hj as (j' & -> & Hj'). done.
      * intros (y & Hy & HPy). destruct j as [|j'].
        -- simpl in Hy. injection Hy as <-. done.
        -- apply Hmem'. eauto.
      * intros k j Hk.
        apply list_lookup_fmap_Some in Hk as (j' & -> & Hk). simpl. eauto.
Qed.

(** C9: the rows of the transformed frame are the rows of the input that
    have no missing value, in the order they had in the input: row [k] of
    the output is the input row at position [js !! k], where [js] lists, in
    increasing order, the positions of the complete rows; its cells are
    those of the input row but for the timestamp cell and a new [id]
    cell. *)
Theorem transform_keeps_row_order now d w d' w' :
  well_formed d →
  transform lower now d w = (Ok d', w') →
  ∃ js : list nat,
    length (rows d') = length js ∧
    (∀ a b ja jb, js !! a = Some ja → js !! b = Some jb →
                  (a < b)%nat → (ja < jb)%nat) ∧
    (∀ j, j ∈ js ↔ ∃ r, rows d !! j = Some r ∧ complete r) ∧
    (∀ k j, js !! k = Some j →
       ∃ r r', rows d !! j = Some r ∧ rows d' !! k = Some r' ∧
         ∀ c, ¬ labelled "etl_timestamp" c d' →
              ¬ (labelled "id" c d' ∧ no_column lower "id" d) →
              r' !! c = r !! c).
Proof.
  intros Hwf H.
  destruct (filter_positions complete (rows d)) as (js & Hlen & Hmono & Hmem & Hlook).
  fold (surviving d) in Hlen, Hlook.
  exists js. repeat split; try done.
  - by rewrite (transformed_length _ _ _ _ _ Hwf H).
  - by apply Hmem.
  - by apply Hmem.
  - intros k j Hk.
    destruct (lookup_lt_is_Some_2 (rows d') k) as [r' Hr'].
    { rewrite (transformed_length _ _ _ _ _ Hwf H), <- Hlen.
      by eapply lookup_lt_Some. }
    destruct (transformed_row _ _ _ _ _ _ _ Hwf H Hr') as (r & Hr & _ & Hcells).
    exists r, r'. rewrite <- (Hlook k j Hk). repeat split; try done.
    intros c. apply (Hcells c).
Qed.

(** ** The file tree *)

Lemma prefix_snoc_cases (q p : list string) x :
  q `prefix_of` p ++ [x] → q `prefix_of` p ∨ q = p ++ [x].
Proof.
  intros [k Hk]. destruct k as [|y k _] using rev_ind.
  - right. by rewrite app_nil_r in Hk.
  - left. rewrite app_assoc in Hk. apply app_inj_tail in Hk as [-> _].
    by exists k.
Qed.

Lemma is_dir_spec s p : Os.isdir s p = true ↔ is_dir s p.
Proof. unfold Os.isdir, is_dir. apply bool_decide_eq_true. Qed.

(** In a tree, every directory above a directory is a directory. *)
Lemma tree_ancestors s p : tree s → is_dir s p → dirs_down_to s p.
Proof.
  intros Htree. induction p as [|x p IH] using rev_ind; intros Hp q Hq.
  - apply prefix_nil_inv in Hq as ->. by left.
  - apply prefix_snoc_cases in Hq as [Hq| ->]; [|done].
    apply IH; [|done].
    destruct Hp as [Hp|Hp]; [by destruct p|].
    destruct (Htree _ _ _ Hp) as [->|?]; [by left | by right].
Qed.

Lemma mkdir_spec name w r w' :
  Os.mkdir name w = (r, w') →
  cwd w' = cwd w ∧ log w' = log w ∧
  match r with
  | Ok _ =>
      fs w' = <[name := Dir]> (fs w) ∧ name ≠ [] ∧ fs w !! name = None ∧
      is_dir (fs w) (Path.dirname name)
  | Raise _ => fs w' = fs w
  end.
Proof.
  unfold Os.mkdir.
  destruct (Os.path_exists (fs w) name) eqn:Hex; [by intros [= <- <-]|].
  destruct (Os.isdir (fs w) (Path.dirname name)) eqn:Hdir; simpl;
    intros [= <- <-]; [|done].
  simpl. repeat split; try done.
  - intros ->. by vm_compute in Hex.
  - apply bool_decide_eq_false in Hex.
    destruct (fs w !! name) eqn:E; [|done]. destruct Hex. right. eauto.
  - by apply is_dir_spec.
Qed.

Lemma insert_dir_tree s name :
  tree s → name ≠ [] → is_dir s (Path.dirname name) → tree (<[name := Dir]> s).
Proof.
  intros Htree Hname Hparent p x n Hn.
  destruct (decide (name = p ++ [x])) as [->|Hne].
  - unfold Path.dirname in Hparent. rewrite removelast_last in Hparent.
    destruct Hparent as [->|Hp]; [by left|]. right.
    rewrite lookup_insert_ne; [done|].
    intros Heq. apply (f_equal length) in Heq. rewrite length_app in Heq.
    simpl in Heq. lia.
  - rewrite lookup_insert_ne in Hn by done.
    destruct (Htree _ _ _ Hn) as [->|Hp]; [by left|]. right.
    destruct (decide (name = p)) as [->|Hne'].
    + by rewrite lookup_insert_eq.
    + by rewrite lookup_insert_ne.
Qed.

(** Running a bind or a handler, case by case. *)
Lemma bind_inv {A B} (c : M A) (k : A → M B) w r w' :
  bind c k w = (r, w') →
  (∃ e, c w = (Raise e, w') ∧ r = Raise e) ∨
  (∃ a w1, c w = (Ok a, w1) ∧ k a w1 = (r, w')).
Proof.
  unfold bind. destruct (c w) as [[a|e] w1]; intros H.
  - right. eauto.
  - left. injection H as <- <-. eauto.
Qed.

Lemma try_except_inv {A} (c : M A) (h : exn → M A) w r w' :
  try_except c h w = (r, w') →
  (∃ a, c w = (Ok a, w') ∧ r = Ok a) ∨
  (∃ e w1, c w = (Raise e, w1) ∧ h e w1 = (r, w')).
Proof.
  unfold try_except. destruct (c w) as [[a|e] w1]; intros H.
  - left. injection H as <- <-. eauto.
  - right. eauto.
Qed.

(** [makedirs] leaves the working directory, the log and every location
    that is not above [name] or [name] itself as they were, and it keeps a
    tree a tree; when it returns, [name] and the directories above it are
    there. *)
Lemma makedirs_rev_spec rname ok w r w' :
  Os.makedirs_rev rname ok w = (r, w') →
  cwd w' = cwd w ∧ log w' = log w ∧
  (∀ q, ¬ q `prefix_of` reverse rname → fs w' !! q = fs w !! q) ∧
  (fs w' !! [] = fs w !! []) ∧
  (tree (fs w) → tree (fs w')) ∧
  (tree (fs w) → (∃ u, r = Ok u) → dirs_down_to (fs w') (reverse rname)).
Proof.
  revert w r w'. induction rname as [|tail rhead IH]; intros w r w' H.
  - vm_compute in H. destruct ok; injection H as <- <-; repeat split; try done.
    all: intros _ _ q Hq; apply prefix_nil_inv in Hq as ->; by left.
  - cbn [Os.makedirs_rev] in H. rewrite reverse_cons in *.
    set (head := reverse rhead) in *.
    assert (∀ q, ¬ q `prefix_of` head ++ [tail] → ¬ q `prefix_of` head) as Hpre.
    { intros q Hq Hq'. apply Hq. by apply prefix_app_r. }
    (* the parent *)
    assert (∀ r1 w1,
      (w0 <- get ;;
       if negb (Os.path_exists (fs w0) head) then
         try_except (Os.makedirs_rev rhead ok)
           (λ e, match e with
                 | OSError FileExistsError _ => ret tt
                 | _ => raise e
                 end)
       else ret tt) w = (r1, w1) →
      cwd w1 = cwd w ∧ log w1 = log w ∧
      (∀ q, ¬ q `prefix_of` head → fs w1 !! q = fs w !! q) ∧
      fs w1 !! [] = fs w !! [] ∧
      (tree (fs w) → tree (fs w1))) as Hparent.
    { intros r1 w1 H1. unfold bind, get in H1.
      destruct (Os.path_exists (fs w) head); simpl in H1.
      { by injection H1 as <- <-. }
      apply try_except_inv in H1 as [(u & Hrec & ->)|(e & w2 & Hrec & Hh)].
      - destruct (IH _ _ _ Hrec) as (? & ? & ? & ? & ? & _). done.
      - destruct (IH _ _ _ Hrec) as (? & ? & ? & ? & ? & _).
        assert (w1 = w2) as ->; [|done].
        destruct e as [?|?|kind ?|?]; [| |destruct kind|];
          by injection Hh as <- <-. }
    apply bind_inv in H as [(e & H1 & ->)|(u & w1 & H1 & H2)].
    { destruct (Hparent _ _ H1) as (? & ? & Hframe & ? & ?).
      repeat split; try done.
      - intros q Hq. by apply Hframe, Hpre.
      - by intros _ [u [=]]. }
    destruct (Hparent _ _ H1) as (Hcwd1 & Hlog1 & Hframe1 & Hroot1 & Htree1).
    (* the directory itself *)
    apply try_except_inv in H2 as [(u' & Hmk & ->)|(e & w2 & Hmk & Hh)].
    + apply mkdir_spec in Hmk as (Hcwd & Hlog & Hfs & Hne & Hnone & Hdir).
      rewrite Hfs. repeat split; try congruence.
      * intros q Hq. rewrite lookup_insert_ne.
        -- by apply Hframe1, Hpre.
        -- intros <-. by apply Hq.
      * by rewrite lookup_insert_ne.
      * intros Ht. apply insert_dir_tree; auto.
      * intros Ht _. apply tree_ancestors.
        -- apply insert_dir_tree; auto.
        -- right. by rewrite lookup_insert_eq.
    + apply mkdir_spec in Hmk as (Hcwd & Hlog & Hfs). simpl in Hfs.
      unfold bind, get, raise, ret in Hh.
      destruct (negb ok || negb (Os.isdir (fs w2) (head ++ [tail]))) eqn:Hquiet;
        injection Hh as <- <-; rewrite Hfs; repeat split; try congruence;
        try done.
      * intros q Hq. by apply Hframe1, Hpre.
      * by intros _ [u' [=]].
      * intros q Hq. by apply Hframe1, Hpre.
      * intros Ht _. apply tree_ancestors; [auto|].
        apply is_dir_spec. apply orb_false_elim in Hquiet as [_ Hd].
        apply negb_false_iff in Hd. by rewrite <- Hfs.
Qed.

(** ** The methods of the pipeline *)

Section PipelineFacts.

Variable parse_csv parse_json parse_excel : string → string → result DataFrame.
Variable render_csv render_json render_excel : string → DataFrame → result string.

Abbreviation etl_extract := (extract lower parse_csv parse_json parse_excel).
Abbreviation etl_load := (load lower render_csv render_json render_excel).
Abbreviation etl_run :=
  (run lower parse_csv parse_json parse_excel
     render_csv render_json render_excel).

Lemma supported_cases ext :
  supported ext ↔ ext = ".csv" ∨ ext = ".json" ∨ ext ∈ [".xlsx"; ".xls"].
Proof. unfold supported. by rewrite !elem_of_cons. Qed.

(** A reader changes nothing, reads only the tree, and fails with the
    [OSError] of the file it cannot read or with what the parser raises on
    the content of the file. *)
Lemma read_with_spec parse path w :
  snd (read_with parse path w) = w ∧
  (∀ e, fst (read_with parse path w) = Raise e →
        (∃ kind p, e = OSError kind p) ∨
        (∃ content, fs w !! Path.abspath (cwd w) path = Some (File content) ∧
                    parse path content = Raise e)) ∧
  (∀ w', cwd w' = cwd w → fs w' = fs w →
         fst (read_with parse path w') = fst (read_with parse path w)).
Proof.
  unfold read_with, bind, Os.read_file, lift. repeat split.
  - destruct (fs w !! _) as [[content|]|]; [|done|by case_bool_decide].
    by destruct (parse path content).
  - intros e. destruct (fs w !! _) as [[content|]|].
    + destruct (parse path content) eqn:Hparse; simpl; [done|].
      intros [= <-]. right. eauto.
    + intros [= <-]. left. eauto.
    + case_bool_decide; intros [= <-]; left; eauto.
  - intros w' -> ->. destruct (fs w !! _) as [[content|]|]; [|done|].
    + by destruct (parse path content).
    + by case_bool_decide.
Qed.

(** [extract], step by step: after the first log entry the reader that the
    extension selects runs, and one more entry records its outcome. *)
Lemma extract_cases self w :
  let ext := extension lower (source_path self) in
  let w0 := snd (logger_info (Extracting (source_path self)) w) in
  ∃ reader : M DataFrame,
    (ext = ".csv" ∧ reader = read_csv parse_csv (source_path self) ∨
     ext = ".json" ∧ reader = read_json parse_json (source_path self) ∨
     ext ∈ [".xlsx"; ".xls"] ∧ reader = read_excel parse_excel (source_path self) ∨
     ¬ supported ext ∧
     reader = raise (ValueError ("Unsupported file format: " +:+ ext))) ∧
    etl_extract self w =
    match reader w0 with
    | (Ok data, w1) =>
        (Ok data, snd (logger_info (Extracted (Pandas.len data)) w1))
    | (Raise e, w1) => (Raise e, snd (logger_error (ExtractionFailed e) w1))
    end.
Proof using parse_csv parse_json parse_excel.
  clear render_csv render_json render_excel.
  intros ext w0.
  assert (∀ reader : M DataFrame,
    try_except
      (data <- reader ;; logger_info (Extracted (Pandas.len data)) ;; ret data)
      (λ e, logger_error (ExtractionFailed e) ;; raise e) w0
    = match reader w0 with
      | (Ok data, w1) =>
          (Ok data, snd (logger_info (Extracted (Pandas.len data)) w1))
      | (Raise e, w1) => (Raise e, snd (logger_error (ExtractionFailed e) w1))
      end) as Hrun.
  { intros reader. unfold try_except, bind.
    by destruct (reader w0) as [[data|e] w1]. }
  unfold extract. unfold bind at 1. cbn [logger_info].
  fold ext. fold w0.
  destruct (bool_decide (ext = ".csv")) eqn:Hcsv.
  { apply bool_decide_eq_true in Hcsv. eexists. split; [left; done|apply Hrun]. }
  destruct (bool_decide (ext = ".json")) eqn:Hjson.
  { apply bool_decide_eq_true in Hjson.
    eexists. split; [right; left; done|apply Hrun]. }
  destruct (bool_decide (ext ∈ [".xlsx"; ".xls"])) eqn:Hxl.
  { apply bool_decide_eq_true in Hxl.
    eexists. split; [right; right; left; done|apply Hrun]. }
  apply bool_decide_eq_false in Hcsv, Hjson, Hxl.
  eexists. split; [|apply Hrun].
  right; right; right. split; [|done]. rewrite supported_cases. tauto.
Qed.

(** A writer leaves the working directory as it is and, when it fails,
    the tree too. *)
Lemma write_with_spec render data path w r w' :
  write_with render data path w = (r, w') →
  cwd w' = cwd w ∧ log w' = log w ∧
  ((∃ e, r = Raise e ∧
         ((∃ kind p, e = OSError kind p) ∨ render path data = Raise e) ∧
         fs w' = fs w) ∨
   (∃ content, r = Ok tt ∧ render path data = Ok content ∧
      fs w' = <[Path.abspath (cwd w) path := File content]> (fs w))).
Proof.
  unfold write_with, bind, lift, Os.write_file.
  destruct (render path data) as [content|e0].
  - destruct (Os.isdir _ _).
    { intros [= <- <-]. repeat split; try done. left. eexists.
      repeat split; try done. left. eauto. }
    destruct (Os.isdir _ _); simpl.
    2:{ intros [= <- <-]. repeat split; try done. left. eexists.
        repeat split; try done. left. eauto. }
    intros [= <- <-]. repeat split; try done. right. eauto.
  - intros [= <- <-]. repeat split; try done. left. eexists.
    repeat split; try done. by right.
Qed.

(** [load], step by step: after the first log entry the parent directory
    of the destination is made, then the writer that the extension selects
    runs, and one more entry records the outcome. *)
Lemma load_cases self data w :
  let ext := extension lower (destination_path self) in
  let w0 := snd (logger_info (Loading (destination_path self)) w) in
  let parent := Path.dirname (Path.abspath (cwd w) (destination_path self)) in
  ∃ writer : M unit,
    (ext = ".csv" ∧ writer = to_csv render_csv data (destination_path self) ∨
     ext = ".json" ∧ writer = to_json render_json data (destination_path self) ∨
     ext ∈ [".xlsx"; ".xls"] ∧
     writer = to_excel render_excel data (destination_path self) ∨
     ¬ supported ext ∧
     writer = raise (ValueError ("Unsupported destination format: " +:+ ext))) ∧
    etl_load self data w =
    match Os.makedirs parent true w0 with
    | (Raise e, w1) => (Raise e, snd (logger_error (LoadFailed e) w1))
    | (Ok _, w1) =>
        match writer w1 with
        | (Raise e, w2) => (Raise e, snd (logger_error (LoadFailed e) w2))
        | (Ok _, w2) =>
            (Ok true,
             snd (logger_info
                    (Loaded (Pandas.len data) (destination_path self)) w2))
        end
    end.
Proof using render_csv render_json render_excel.
  clear parse_csv parse_json parse_excel.
  intros ext w0 parent.
  assert (∀ writer : M unit,
    try_except
      (w1 <- get ;;
       Os.makedirs
         (Path.dirname (Path.abspath (cwd w1) (destination_path self))) true ;;
       writer ;;
       logger_info (Loaded (Pandas.len data) (destination_path self)) ;;
       ret true)
      (λ e, logger_error (LoadFailed e) ;; raise e) w0
    = match Os.makedirs parent true w0 with
      | (Raise e, w1) => (Raise e, snd (logger_error (LoadFailed e) w1))
      | (Ok _, w1) =>
          match writer w1 with
          | (Raise e, w2) => (Raise e, snd (logger_error (LoadFailed e) w2))
          | (Ok _, w2) =>
              (Ok true,
               snd (logger_info
                      (Loaded (Pandas.len data) (destination_path self)) w2))
          end
      end) as Hrun.
  { intros writer. unfold try_except, bind, get. cbn [cwd w0 logger_info snd].
    fold parent.
    destruct (Os.makedirs parent true _) as [[u|e] w1]; [|done].
    by destruct (writer w1) as [[u'|e] w2]. }
  unfold load. unfold bind at 1. cbn [logger_info].
  fold ext. fold w0.
  destruct (bool_decide (ext = ".csv")) eqn:Hcsv.
  { apply bool_decide_eq_true in Hcsv. eexists. split; [left; done|apply Hrun]. }
  destruct (bool_decide (ext = ".json")) eqn:Hjson.
  { apply bool_decide_eq_true in Hjson.
    eexists. split; [right; left; done|apply Hrun]. }
  destruct (bool_decide (ext ∈ [".xlsx"; ".xls"])) eqn:Hxl.
  { apply bool_decide_eq_true in Hxl.
    eexists. split; [right; right; left; done|apply Hrun]. }
  apply bool_decide_eq_false in Hcsv, Hjson, Hxl.
  eexists. split; [|apply Hrun].
  right; right; right. split; [|done]. rewrite supported_cases. tauto.
Qed.

(** [run], step by step. *)
Lemma run_cases self now w :
  let w0 := snd (logger_info PipelineStarting w) in
  etl_run self now w =
  match etl_extract self w0 with
  | (Raise e, w1) => (Ok false, snd (logger_error (PipelineFailed e) w1))
  | (Ok raw_data, w1) =>
      match transform lower now raw_data w1 with
      | (Raise e, w2) => (Ok false, snd (logger_error (PipelineFailed e) w2))
      | (Ok transformed_data, w2) =>
          match etl_load self transformed_data w2 with
          | (Raise e, w3) =>
              (Ok false, snd (logger_error (PipelineFailed e) w3))
          | (Ok _, w3) => (Ok true, snd (logger_info PipelineCompleted w3))
          end
      end
  end.
Proof.
  intros w0. unfold run, try_except. unfold bind at 1.
  change (logger_info PipelineStarting w) with (Ok tt, w0). cbv beta iota.
  unfold bind at 1.
  destruct (etl_extract self w0) as [[raw_data|e] w1]; [|reflexivity].
  unfold bind at 1.
  destruct (transform lower now raw_data w1) as [[transformed_data|e] w2];
    [|reflexivity].
  unfold bind at 1.
  destruct (etl_load self transformed_data w2) as [[b|e] w3]; reflexivity.
Qed.

(** [extract] never touches the tree. *)
Lemma extract_files self w :
  cwd (snd (etl_extract self w)) = cwd w ∧ fs (snd (etl_extract self w)) = fs w.
Proof using parse_csv parse_json parse_excel.
  clear render_csv render_json render_excel.
  destruct (extract_cases self w) as (reader & Hreader & ->). cbn zeta.
  set (w0 := snd (logger_info (Extracting (source_path self)) w)).
  assert (snd (reader w0) = w0) as Hsame.
  { destruct Hreader as [[_ ->]|[[_ ->]|[[_ ->]|[_ ->]]]];
      [apply read_with_spec..|done]. }
  destruct (reader w0) as [[data|e] w1]; simpl in Hsame; by subst w1.
Qed.

(** [extract] fails when the source is not there. *)
Lemma extract_missing self w :
  Os.path_exists (fs w) (Path.abspath (cwd w) (source_path self)) = false →
  ∃ e, etl_extract self w
       = (Raise e,
          snd (logger_error (ExtractionFailed e)
                 (snd (logger_info (Extracting (source_path self)) w)))).
Proof using parse_csv parse_json parse_excel.
  clear render_csv render_json render_excel.
  intros Hmissing. apply bool_decide_eq_false in Hmissing.
  destruct (extract_cases self w) as (reader & Hreader & ->). cbn zeta.
  set (w0 := snd (logger_info (Extracting (source_path self)) w)).
  assert (∀ parse, ∃ e, read_with parse (source_path self) w0 = (Raise e, w0))
    as Hread.
  { intros parse. unfold read_with, bind, Os.read_file. cbn [w0 logger_info snd cwd fs].
    destruct (fs w !! _) as [n|] eqn:Hn; [destruct Hmissing; eauto|].
    rewrite bool_decide_eq_false_2 by tauto. eauto. }
  destruct Hreader as [[_ ->]|[[_ ->]|[[_ ->]|[_ ->]]]].
  - destruct (Hread parse_csv) as [e He]. unfold read_csv. rewrite He. eauto.
  - destruct (Hread parse_json) as [e He]. unfold read_json. rewrite He. eauto.
  - destruct (Hread parse_excel) as [e He]. unfold read_excel. rewrite He. eauto.
  - unfold raise. eauto.
Qed.

Lemma makedirs_rev_raises rname ok w e w' :
  Os.makedirs_rev rname ok w = (Raise e, w') → ∃ kind p, e = OSError kind p.
Proof.
  revert w e w'. induction rname as [|tail rhead IH]; intros w e w' H.
  - vm_compute in H. destruct ok; [discriminate|].
    injection H as <- <-. eauto.
  - cbn [Os.makedirs_rev] in H.
    apply bind_inv in H as [(e' & H1 & [= ->])|(u & w1 & _ & H2)].
    + unfold bind, get in H1.
      destruct (Os.path_exists (fs w) (reverse rhead)); simpl in H1; [done|].
      apply try_except_inv in H1 as [(u & _ & [=])|(e0 & w2 & Hrec & Hh)].
      apply IH in Hrec as (kind & p & ->).
      unfold ret, raise in Hh.
      destruct kind; try discriminate; injection Hh as <- <-; eauto.
    + apply try_except_inv in H2 as [(u' & _ & [=])|(e0 & w2 & Hmk & Hh)].
      assert (∃ kind p, e0 = OSError kind p) as (kind & p & ->).
      { unfold Os.mkdir in Hmk.
        destruct (Os.path_exists (fs w1) _); [injection Hmk as <- <-; eauto|].
        destruct (negb (Os.isdir (fs w1) _)); [|discriminate].
        injection Hmk as <- <-; eauto. }
      unfold bind, get, raise, ret in Hh.
      destruct (_ || _); [|discriminate]. injection Hh as <- <-. eauto.
Qed.

Lemma makedirs_spec name w r w' :
  Os.makedirs name true w = (r, w') →
  cwd w' = cwd w ∧ log w' = log w ∧
  (∀ q, ¬ q `prefix_of` name → fs w' !! q = fs w !! q) ∧
  fs w' !! [] = fs w !! [] ∧
  (tree (fs w) → (∃ u, r = Ok u) → dirs_down_to (fs w') name) ∧
  (∀ e, r = Raise e → ∃ kind p, e = OSError kind p).
Proof.
  unfold Os.makedirs. intros H.
  destruct (makedirs_rev_spec _ _ _ _ _ H) as (? & ? & Hframe & ? & _ & Hdirs).
  rewrite reverse_involutive in Hframe, Hdirs. repeat split; try done.
  intros e ->. by eapply makedirs_rev_raises.
Qed.



(** C6: [run] runs [extract], then [transform] on the frame [extract]
    returned, then [load] on the frame [transform] returned, each in the
    world the step before left; the first step that fails ends the run.
    [run] never raises: it returns [true] exactly when the three steps
    succeed and [false] when one fails. *)
Theorem run_in_order self now w :
  let w0 := snd (logger_info PipelineStarting w) in
  (∃ b w', etl_run self now w = (Ok b, w')) ∧
  (fst (etl_run self now w) = Ok true ↔
   ∃ raw w1 t w2 b w3,
     etl_extract self w0 = (Ok raw, w1) ∧
     transform lower now raw w1 = (Ok t, w2) ∧
     etl_load self t w2 = (Ok b, w3)) ∧
  (∀ e w1,
     etl_extract self w0 = (Raise e, w1) →
     etl_run self now w = (Ok false, snd (logger_error (PipelineFailed e) w1))) ∧
  (∀ raw w1 e w2,
     etl_extract self w0 = (Ok raw, w1) →
     transform lower now raw w1 = (Raise e, w2) →
     etl_run self now w = (Ok false, snd (logger_error (PipelineFailed e) w2))) ∧
  (∀ raw w1 t w2 e w3,
     etl_extract self w0 = (Ok raw, w1) →
     transform lower now raw w1 = (Ok t, w2) →
     etl_load self t w2 = (Raise e, w3) →
     etl_run self now w = (Ok false, snd (logger_error (PipelineFailed e) w3))) ∧
  (∀ raw w1 t w2 b w3,
     etl_extract self w0 = (Ok raw, w1) →
     transform lower now raw w1 = (Ok t, w2) →
     etl_load self t w2 = (Ok b, w3) →
     etl_run self now w = (Ok true, snd (logger_info PipelineCompleted w3))).
Proof.
  intros w0. rewrite (run_cases self now w). cbn zeta. fold w0.
  destruct (etl_extract self w0) as [[raw|e] w1].
  2:{ cbn [fst]. repeat split; try done; try by eauto.
      - intros (? & ? & ? & ? & ? & ? & [=] & _).
      - by intros ? ? [= <- <-]. }
  destruct (transform lower now raw w1) as [[t|e] w2] eqn:Ht.
  2:{ cbn [fst]. repeat split; try done; try by eauto.
      - intros (? & ? & ? & ? & ? & ? & [= <- <-] & Ht' & _). congruence.
      - intros ? ? ? ? [= <- <-] Ht'. congruence.
      - intros ? ? ? ? ? ? [= <- <-] Ht'. congruence.
      - intros ? ? ? ? ? ? [= <- <-] Ht'. congruence. }
  destruct (etl_load self t w2) as [[b|e] w3] eqn:Hl.
  - cbn [fst]. repeat split; try done; try by eauto.
    + intros _. by exists raw, w1, t, w2, b, w3.
    + intros ? ? ? ? [= <- <-] Ht'. congruence.
    + intros ? ? ? ? ? ? [= <- <-] Ht' Hl'. congruence.
    + intros ? ? ? ? ? ? [= <- <-] Ht' Hl'. congruence.
  - cbn [fst]. repeat split; try done; try by eauto.
    + intros (? & ? & ? & ? & ? & ? & [= <- <-] & Ht' & Hl'). congruence.
    + intros ? ? ? ? [= <- <-] Ht'. congruence.
    + intros ? ? ? ? ? ? [= <- <-] Ht' Hl'. congruence.
    + intros ? ? ? ? ? ? [= <- <-] Ht' Hl'. congruence.
Qed.

(** C7: when the source path does not exist, [extract] fails and [run]
    returns [false]; [load] is not reached, and the tree after the run is
    the tree before it: no file is made or changed, at the destination or
    elsewhere.  The log gets the failure of the extraction. *)
Theorem run_without_source self now w :
  Os.path_exists (fs w) (Path.abspath (cwd w) (source_path self)) = false →
  ∃ e w',
    etl_run self now w = (Ok false, w') ∧
    fs w' = fs w ∧ cwd w' = cwd w ∧
    log w' = log w ++ [(INFO, PipelineStarting);
                       (INFO, Extracting (source_path self));
                       (ERROR, ExtractionFailed e);
                       (ERROR, PipelineFailed e)] ∧
    fs w' !! Path.abspath (cwd w') (destination_path self)
    = fs w !! Path.abspath (cwd w) (destination_path self).
Proof.
  intros Hmissing. rewrite (run_cases self now w). cbn zeta.
  set (w0 := snd (logger_info PipelineStarting w)).
  destruct (extract_missing self w0 Hmissing) as [e ->].
  exists e. eexists. split; [done|]. cbn. repeat split.
  by rewrite <- !app_assoc.
Qed.

Lemma not_prefix_of_dirname (p : list string) :
  p ≠ [] → ¬ p `prefix_of` Path.dirname p.
Proof.
  intros Hp. unfold Path.dirname.
  rewrite (app_removelast_last "" Hp) at 1. apply prefix_snoc_not.
Qed.



End PipelineFacts.

(** * Further properties of the methods *)

(** ** [transform] *)

(** What [transform] does to the world: it never touches the working
    directory or the tree, and it logs its start and its outcome. *)
Lemma transform_world now d w r w' :
  transform lower now d w = (r, w') →
  cwd w' = cwd w ∧ fs w' = fs w ∧
  log w' = log w ++ [(INFO, Transforming);
                     match r with
                     | Ok d' => (INFO, Transformed (Pandas.len d'))
                     | Raise e => (ERROR, TransformationFailed e)
                     end].
Proof.
  unfold transform, bind, try_except, logger_info, logger_error, lift,
    ret, raise.
  cbn [Pandas.dropna columns].
  destruct (labels_lower lower (columns d)) as [cols|e]; simpl.
  2:{ intros [= <- <-]. simpl. by rewrite <- app_assoc. }
  destruct (Pandas.setitem_scalar _ _ _) as [d1|msg]; simpl.
  2:{ intros [= <- <-]. simpl. by rewrite <- app_assoc. }
  destruct (Pandas.contains "id" d1); simpl.
  { intros [= <- <-]. simpl. by rewrite <- app_assoc. }
  destruct (Pandas.setitem "id" _ d1) as [d2|msg]; simpl;
    intros [= <- <-]; simpl; by rewrite <- app_assoc.
Qed.

(** X1: [transform] returns a frame exactly when every column label is a
    string; otherwise [col.lower()] raises and the failure is an
    [AttributeError]. *)
Theorem transform_succeeds_iff now d w :
  ((∃ d' w', transform lower now d w = (Ok d', w'))
   ↔ ∀ l, l ∈ columns d → ∃ s, l = LStr s) ∧
  (∀ e w', transform lower now d w = (Raise e, w') →
           (∃ z, LInt z ∈ columns d) ∧ ∃ msg, e = AttributeError msg).
Proof.
  split; [split|].
  - intros (d' & w' & H).
    apply transform_inv in H as (cols & _ & Hcols & _).
    apply labels_lower_Ok in Hcols as (names & -> & _).
    intros l Hl. apply list_elem_of_fmap in Hl as (s & -> & _). by exists s.
  - apply transform_returns.
  - intros e w' H.
    destruct (labels_lower lower (columns d)) as [cols|e0] eqn:Hcols.
    + apply labels_lower_Ok in Hcols as (names & Hnames & _).
      destruct (transform_returns now d w) as (d' & w'' & H').
      { rewrite Hnames. intros l Hl.
        apply list_elem_of_fmap in Hl as (s & -> & _). by exists s. }
      congruence.
    + apply labels_lower_Raise in Hcols as [z Hz]. split; [by exists z|].
      destruct (transform_raises now d w z Hz) as (msg & w'' & H').
      exists msg. congruence.
Qed.

(** X2: [transform] leaves the files alone: whatever its outcome, the
    working directory and the tree are as before, and the log gets two
    entries, the start and then either the number of rows of the frame
    returned or the failure. *)
Theorem transform_touches_no_file now d w :
  cwd (snd (transform lower now d w)) = cwd w ∧
  fs (snd (transform lower now d w)) = fs w ∧
  ∃ entry,
    log (snd (transform lower now d w)) = log w ++ [(INFO, Transforming); entry] ∧
    match fst (transform lower now d w) with
    | Ok d' => entry = (INFO, Transformed (length (rows d')))
    | Raise e => entry = (ERROR, TransformationFailed e)
    end.
Proof.
  destruct (transform lower now d w) as [r w'] eqn:H.
  apply transform_world in H as (Hcwd & Hfs & Hlog). simpl.
  repeat split; try done.
  eexists. split; [exact Hlog|]. by destruct r.
Qed.

(** The cells of a column of the input whose label is not the timestamp's:
    the transformed frame has them unchanged for the surviving rows. *)
Lemma column_kept now d w d' w' j s :
  well_formed d →
  transform lower now d w = (Ok d', w') →
  columns d !! j = Some (LStr s) →
  lower s ≠ "etl_timestamp" →
  column j (rows d') = column j (surviving d).
Proof.
  intros Hwf H Hs Hne.
  pose proof (proj1 (transformed_label _ _ _ _ _ j Hwf H) s Hs) as Hj.
  apply list_eq. intros i. unfold column. rewrite !list_lookup_fmap.
  destruct (rows d' !! i) as [r'|] eqn:Hr'; simpl.
  - destruct (transformed_row _ _ _ _ _ _ _ Hwf H Hr') as (r & Hr & _ & Hcells).
    rewrite Hr. simpl. f_equal. apply (Hcells j).
    + unfold labelled. rewrite Hj. intros [= Heq]. done.
    + unfold labelled. rewrite Hj. intros [[= Heq] Hno].
      apply (Hno s); [|done]. by eapply list_elem_of_lookup_2.
  - apply lookup_ge_None in Hr'.
    rewrite (transformed_length _ _ _ _ _ Hwf H) in Hr'.
    by rewrite (lookup_ge_None_2 (surviving d) i).
Qed.

(** X3: every column of the input keeps its position, with its label in
    lower case; unless that label is [etl_timestamp], it also keeps, for
    every surviving row, the value the row had. *)
Theorem transform_keeps_columns now d w d' w' j s :
  well_formed d →
  transform lower now d w = (Ok d', w') →
  columns d !! j = Some (LStr s) →
  columns d' !! j = Some (LStr (lower s)) ∧
  (lower s ≠ "etl_timestamp" →
   column j (rows d') = column j (surviving d)).
Proof.
  intros Hwf H Hs. split.
  - by apply (transformed_label _ _ _ _ _ j Hwf H).
  - intros Hne. by eapply column_kept.
Qed.

(** X4: a column of the input that is labelled [etl_timestamp] in any case
    is overwritten: in the transformed frame it holds the time of the
    transformation in every row, and no other timestamp column is added. *)
Theorem transform_overwrites_timestamp now d w d' w' j s :
  well_formed d →
  transform lower now d w = (Ok d', w') →
  columns d !! j = Some (LStr s) →
  lower s = "etl_timestamp" →
  labelled "etl_timestamp" j d' ∧
  column j (rows d') = replicate (length (surviving d)) (Some (CStr now)) ∧
  (∀ j', labelled "etl_timestamp" j' d' → (j' < length (columns d))%nat).
Proof.
  intros Hwf H Hs Hlow.
  assert (labelled "etl_timestamp" j d') as Hj.
  { unfold labelled. rewrite <- Hlow.
    by apply (transformed_label _ _ _ _ _ j Hwf H). }
  repeat split; [done| |].
  - apply list_eq. intros i. unfold column. rewrite list_lookup_fmap.
    destruct (rows d' !! i) as [r'|] eqn:Hr'; simpl.
    + destruct (transformed_row _ _ _ _ _ _ _ Hwf H Hr') as (r & Hr & _ & Hcells).
      rewrite (proj1 (Hcells j) Hj).
      rewrite lookup_replicate_2; [done|]. by eapply lookup_lt_Some.
    + apply lookup_ge_None in Hr'.
      rewrite (transformed_length _ _ _ _ _ Hwf H) in Hr'.
      symmetry. by apply lookup_replicate_None.
  - intros j' Hj'.
    destruct (proj2 (transformed_label _ _ _ _ _ j' Hwf H) _ Hj')
      as [(s' & Hs' & _)|(_ & [[_ Hno]|[[=] _]])].
    + by eapply lookup_lt_Some.
    + destruct (Hno s); [|done]. by eapply list_elem_of_lookup_2.
Qed.

(** X5: the shape of the transformed frame.  Its labels are the lowered
    labels of the input, then [etl_timestamp] unless a lowered label is
    that already, then [id] unless a lowered label is that already; every
    row has one cell per label; and there are as many rows as the input has
    rows without a missing value, so never more than the input has. *)
Theorem transform_shape now d w d' w' :
  well_formed d →
  transform lower now d w = (Ok d', w') →
  (∃ names,
     columns d = LStr <$> names ∧
     columns d' =
       ((LStr ∘ lower) <$> names)
       ++ (if decide (LStr "etl_timestamp" ∈ (LStr ∘ lower) <$> names)
           then [] else [LStr "etl_timestamp"])
       ++ (if decide (LStr "id" ∈ (LStr ∘ lower) <$> names)
           then [] else [LStr "id"])) ∧
  well_formed d' ∧
  length (rows d') = length (surviving d) ∧
  (length (rows d') ≤ length (rows d))%nat ∧
  (length (rows d') = length (rows d) ↔ Forall complete (rows d)).
Proof.
  intros Hwf H.
  destruct (transform_Ok _ _ _ _ _ Hwf H)
    as (names & Hnames & Hcols & Hwf' & Hlen & _).
  split; [by exists names|]. split; [done|]. split; [done|].
  rewrite Hlen. split; [apply length_filter|].
  split.
  - unfold surviving. intros Heq. induction (rows d) as [|r rs IH]; [constructor|].
    rewrite filter_cons in Heq. destruct (decide (complete r)) as [Hr|Hr].
    + constructor; [done|]. apply IH. simpl in Heq. lia.
    + pose proof (length_filter complete rs). simpl in Heq. lia.
  - intros Hall. by rewrite (surviving_all d Hall).
Qed.

(** The rows of the transformed frame are complete, and its labels are
    strings that [lower] leaves as they are. *)
Lemma transformed_rows_complete now d w d' w' :
  well_formed d →
  transform lower now d w = (Ok d', w') →
  Forall complete (rows d').
Proof.
  intros Hwf H. apply Forall_forall. intros r' Hr' Hnull.
  apply list_elem_of_lookup in Hr' as [i Hr'].
  apply list_elem_of_lookup in Hnull as [j Hnull].
  destruct (transformed_row _ _ _ _ _ _ _ Hwf H Hr') as (r & _ & Hr & Hcells).
  destruct (Hcells j) as (Hts & Hid & Hother).
  destruct (decide (columns d' !! j = Some (LStr "etl_timestamp"))) as [Hj|Hj].
  { rewrite Hts in Hnull by done. discriminate. }
  destruct (decide (columns d' !! j = Some (LStr "id"))) as [Hj'|Hj'].
  - destruct (proj2 (transformed_label _ _ _ _ _ j Hwf H) _ Hj')
      as [(s & Hs & [= Hlow])|(_ & [[[=] _]|[_ Hno]])].
    + rewrite Hother in Hnull; [|done|].
      * apply Hr. by eapply list_elem_of_lookup_2.
      * intros [_ Hno]. apply (Hno s); [|done]. by eapply list_elem_of_lookup_2.
    + rewrite Hid in Hnull by done. discriminate.
  - rewrite Hother in Hnull; [|done|tauto].
    apply Hr. by eapply list_elem_of_lookup_2.
Qed.

Lemma transformed_labels_lowered now d w d' w' l :
  idempotent lower →
  lowers_ascii lower →
  well_formed d →
  transform lower now d w = (Ok d', w') →
  l ∈ columns d' →
  ∃ s, l = LStr s ∧ lower s = s.
Proof.
  intros Hidem Hascii Hwf H Hl. apply list_elem_of_lookup in Hl as [j Hl].
  destruct (proj2 (transformed_label _ _ _ _ _ j Hwf H) _ Hl)
    as [(s & _ & ->)|(_ & [[-> _]|[-> _]])]; eexists; (split; [done|]).
  - apply Hidem.
  - by apply etl_timestamp_lowercase.
  - by apply id_lowercase.
Qed.

(** X6: [transform] run again on its own result changes nothing but the
    timestamp: the labels, the number of rows and every other cell stay,
    no row is dropped and no [id] is renumbered; with the same clock
    reading the frame comes out as it went in.  Of [str.lower] this uses
    that lower-casing twice is lower-casing once and that on ASCII strings
    it is the lower-casing of [A]..[Z]. *)
Theorem transform_again now now2 d w d' w' w2 :
  idempotent lower →
  lowers_ascii lower →
  well_formed d →
  transform lower now d w = (Ok d', w') →
  ∃ d'' w'',
    transform lower now2 d' w2 = (Ok d'', w'') ∧
    columns d'' = columns d' ∧
    length (rows d'') = length (rows d') ∧
    (∀ j, ¬ labelled "etl_timestamp" j d' →
          column j (rows d'') = column j (rows d')) ∧
    (∀ j, labelled "etl_timestamp" j d' →
          column j (rows d'')
          = replicate (length (rows d')) (Some (CStr now2))) ∧
    (now2 = now → d'' = d').
Proof.
  intros Hidem Hascii Hwf H.
  destruct (transform_Ok _ _ _ _ _ Hwf H) as (_ & _ & _ & Hwf' & _ & _).
  pose proof (transformed_rows_complete _ _ _ _ _ Hwf H) as Hcomplete.
  pose proof (surviving_all d' Hcomplete) as Hsurv.
  destruct (transform_returns now2 d' w2) as (d'' & w'' & H2).
  { intros l Hl.
    destruct (transformed_labels_lowered _ _ _ _ _ l Hidem Hascii Hwf H Hl)
      as (s & -> & _).
    by exists s. }
  exists d'', w''. split; [done|].
  destruct (transformed_has_columns _ _ _ _ _ Hwf H) as [[jt Hjt] [ji Hji]].
  assert (columns d'' = columns d') as Hcols.
  { apply list_eq. intros j.
    destruct (columns d' !! j) as [l|] eqn:Hl.
    - destruct (transformed_labels_lowered _ _ _ _ _ l Hidem Hascii Hwf H)
        as (s & -> & Hlow).
      { by eapply list_elem_of_lookup_2. }
      rewrite <- Hlow at 1.
      by apply (transformed_label _ _ _ _ _ j Hwf' H2).
    - destruct (columns d'' !! j) as [l|] eqn:Hl'; [|done].
      destruct (proj2 (transformed_label _ _ _ _ _ j Hwf' H2) _ Hl')
        as [(s & Hs & _)|(_ & [[_ Hno]|[_ Hno]])].
      + congruence.
      + destruct (Hno "etl_timestamp"); [|by apply etl_timestamp_lowercase].
        by eapply list_elem_of_lookup_2.
      + destruct (Hno "id"); [|by apply id_lowercase].
        by eapply list_elem_of_lookup_2. }
  assert (length (rows d'') = length (rows d')) as Hlen.
  { by rewrite (transformed_length _ _ _ _ _ Hwf' H2), Hsurv. }
  assert (∀ i r'', rows d'' !! i = Some r'' →
            ∃ r', rows d' !! i = Some r' ∧
              ∀ j, r'' !! j = if bool_decide (columns d' !! j
                                              = Some (LStr "etl_timestamp"))
                              then Some (CStr now2) else r' !! j) as Hrows.
  { intros i r'' Hr''.
    destruct (transformed_row _ _ _ _ _ _ _ Hwf' H2 Hr'')
      as (r' & Hr' & _ & Hcells).
    rewrite Hsurv in Hr'. exists r'. split; [done|]. intros j.
    destruct (Hcells j) as (Hts & _ & Hother). unfold labelled in *.
    rewrite Hcols in Hts, Hother.
    case_bool_decide as Hj; [by apply Hts|].
    apply Hother; [done|]. intros [_ Hno].
    destruct (Hno "id"); [|by apply id_lowercase].
    by eapply list_elem_of_lookup_2. }
  split; [done|]. split; [done|]. repeat split.
  - intros j Hj. apply list_eq. intros i. unfold column.
    rewrite !list_lookup_fmap.
    destruct (rows d'' !! i) as [r''|] eqn:Hr''; simpl.
    + destruct (Hrows i r'' Hr'') as (r' & -> & Hcells). simpl.
      rewrite Hcells. by rewrite bool_decide_eq_false_2.
    + apply lookup_ge_None in Hr''. rewrite Hlen in Hr''.
      by rewrite (lookup_ge_None_2 (rows d') i).
  - intros j Hj. apply list_eq. intros i. unfold column.
    rewrite list_lookup_fmap.
    destruct (rows d'' !! i) as [r''|] eqn:Hr''; simpl.
    + destruct (Hrows i r'' Hr'') as (r' & Hr' & Hcells).
      rewrite Hcells, bool_decide_eq_true_2 by done.
      rewrite lookup_replicate_2; [done|]. by eapply lookup_lt_Some.
    + apply lookup_ge_None in Hr''. rewrite Hlen in Hr''.
      symmetry. by apply lookup_replicate_None.
  - intros ->.
    assert (rows d'' = rows d') as Hsame.
    { apply list_eq. intros i.
      destruct (rows d'' !! i) as [r''|] eqn:Hr''.
      - destruct (Hrows i r'' Hr'') as (r' & Hr' & Hcells).
        rewrite Hr'. f_equal. apply list_eq. intros j. rewrite Hcells.
        case_bool_decide as Hj; [|done].
        destruct (transformed_row _ _ _ _ _ _ _ Hwf H Hr') as (r0 & _ & _ & Hc).
        symmetry. by apply (Hc j).
      - apply lookup_ge_None in Hr''. rewrite Hlen in Hr''.
        by rewrite (lookup_ge_None_2 (rows d') i). }
    destruct d'', d'. simpl in *. by subst.
Qed.

(** ** [extract], [load] and [run] *)

Section MoreFacts.

Variable parse_csv parse_json parse_excel : string → string → result DataFrame.
Variable render_csv render_json render_excel : string → DataFrame → result string.

Abbreviation etl_extract := (extract lower parse_csv parse_json parse_excel).
Abbreviation etl_load := (load lower render_csv render_json render_excel).
Abbreviation etl_run :=
  (run lower parse_csv parse_json parse_excel
     render_csv render_json render_excel).

(** The parser and the renderer that go with a supported extension. *)
Abbreviation parser_of ext :=
  (if bool_decide (ext = ".csv") then parse_csv
   else if bool_decide (ext = ".json") then parse_json
   else parse_excel).
Abbreviation renderer_of ext :=
  (if bool_decide (ext = ".csv") then render_csv
   else if bool_decide (ext = ".json") then render_json
   else render_excel).

(** The outcomes of a reader. *)
Lemma read_with_cases parse path w :
  let loc := Path.abspath (cwd w) path in
  (∃ content data,
     fs w !! loc = Some (File content) ∧ parse path content = Ok data ∧
     read_with parse path w = (Ok data, w)) ∨
  (∃ content e,
     fs w !! loc = Some (File content) ∧ parse path content = Raise e ∧
     read_with parse path w = (Raise e, w)) ∨
  (∃ kind,
     (∀ content, fs w !! loc ≠ Some (File content)) ∧
     read_with parse path w = (Raise (OSError kind loc), w)).
Proof.
  intros loc. unfold read_with, bind, Os.read_file, lift. fold loc.
  destruct (fs w !! loc) as [[content|]|] eqn:Hloc.
  - destruct (parse path content) as [data|e] eqn:Hparse.
    + left. by exists content, data.
    + right; left. by exists content, e.
  - right; right. by exists IsADirectoryError.
  - right; right. case_bool_decide; eexists; split; done.
Qed.

(** The outcomes of [extract]. *)
Lemma extract_outcomes self w :
  let ext := extension lower (source_path self) in
  let loc := Path.abspath (cwd w) (source_path self) in
  let w0 := snd (logger_info (Extracting (source_path self)) w) in
  (∃ content data,
     supported ext ∧
     fs w !! loc = Some (File content) ∧
     parser_of ext (source_path self) content = Ok data ∧
     etl_extract self w
     = (Ok data, snd (logger_info (Extracted (Pandas.len data)) w0))) ∨
  (∃ e,
     etl_extract self w = (Raise e, snd (logger_error (ExtractionFailed e) w0)) ∧
     (¬ supported ext ∧ e = ValueError ("Unsupported file format: " +:+ ext) ∨
      supported ext ∧
      ((∃ content,
          fs w !! loc = Some (File content) ∧
          parser_of ext (source_path self) content = Raise e) ∨
       (∃ kind, (∀ content, fs w !! loc ≠ Some (File content)) ∧
                e = OSError kind loc)))).
Proof using parse_csv parse_json parse_excel.
  clear render_csv render_json render_excel.
  intros ext loc w0.
  destruct (extract_cases parse_csv parse_json parse_excel self w)
    as (reader & Hreader & ->).
  cbn zeta. fold ext w0 in Hreader |- *.
  assert (".csv" ≠ ".json" ∧ (".csv" ∉ [".xlsx"; ".xls"])
          ∧ (".json" ∉ [".xlsx"; ".xls"])) as (Hcj & Hcx & Hjx).
  { rewrite !elem_of_cons, !elem_of_nil. by repeat split; intros; intuition. }
  pose proof (supported_cases ext) as Hsup.
  match goal with
  | |- ?G =>
      assert (∀ parse,
                reader = read_with parse (source_path self) →
                supported ext →
                parser_of ext = parse →
                G) as Hread
  end.
  2:{ unfold read_csv, read_json, read_excel in Hreader.
      destruct Hreader as [[He Hr]|[[He Hr]|[[He Hr]|[He Hr]]]].
      - apply (Hread parse_csv Hr); [tauto|].
        by rewrite bool_decide_eq_true_2.
      - apply (Hread parse_json Hr); [tauto|].
        rewrite bool_decide_eq_false_2 by congruence.
        by rewrite bool_decide_eq_true_2.
      - apply (Hread parse_excel Hr); [tauto|].
        rewrite bool_decide_eq_false_2 by (intros Heq; by rewrite Heq in He).
        by rewrite bool_decide_eq_false_2 by (intros Heq; by rewrite Heq in He).
      - right. rewrite Hr. unfold raise. eexists. split; [done|]. by left. }
  intros parse -> Hext Hparser. rewrite Hparser.
  assert (Path.abspath (cwd w0) (source_path self) = loc) as Hloc by done.
  assert (fs w0 = fs w) as Hfs by done.
  destruct (read_with_cases parse (source_path self) w0)
    as [(content & data & Hfile & Hparse & ->)
       |[(content & e & Hfile & Hparse & ->)|(kind & Hfile & ->)]];
    rewrite Hloc, Hfs in Hfile.
  - left. by exists content, data.
  - right. eexists. split; [done|]. right. split; [done|]. left.
    by exists content.
  - right. eexists. split; [done|]. right. split; [done|]. right.
    rewrite Hloc. by exists kind.
Qed.

(** X7: when [extract] returns a frame, the extension of the source is a
    supported one, the source is a file of the tree, and the frame is what
    the parser of that format makes of its content; the tree is as before
    and the log tells the number of rows. *)
Theorem extract_returns_parsed self w data w' :
  etl_extract self w = (Ok data, w') →
  supported (extension lower (source_path self)) ∧
  (∃ content,
     fs w !! Path.abspath (cwd w) (source_path self) = Some (File content) ∧
     parser_of (extension lower (source_path self)) (source_path self) content
     = Ok data) ∧
  cwd w' = cwd w ∧ fs w' = fs w ∧
  log w' = log w ++ [(INFO, Extracting (source_path self));
                     (INFO, Extracted (length (rows data)))].
Proof using parse_csv parse_json parse_excel.
  clear render_csv render_json render_excel.
  intros H.
  destruct (extract_outcomes self w)
    as [(content & data' & Hext & Hfile & Hparse & Heq)|(e & Heq & _)];
    rewrite Heq in H; [|discriminate].
  injection H as <- <-. split; [done|]. split; [by exists content|].
  cbn. repeat split. by rewrite <- app_assoc.
Qed.


(** [makedirs] on a directory that is there changes nothing. *)
Lemma makedirs_existing name w :
  tree (fs w) → is_dir (fs w) name → Os.makedirs name true w = (Ok tt, w).
Proof.
  intros Htree Hdir. unfold Os.makedirs.
  destruct name as [|tail head _] using rev_ind; [reflexivity|].
  rewrite reverse_snoc. cbn [Os.makedirs_rev]. unfold bind at 1. unfold bind at 1.
  unfold get at 1. rewrite reverse_involutive.
  assert (Os.path_exists (fs w) head = true) as ->.
  { apply bool_decide_eq_true.
    destruct (tree_ancestors _ _ Htree Hdir head) as [->|Hhead];
      [by apply prefix_app_r | by left | right; eauto]. }
  cbn [negb]. unfold ret at 1. unfold try_except, Os.mkdir.
  rewrite reverse_cons, reverse_involutive.
  assert (Os.path_exists (fs w) (head ++ [tail]) = true) as ->.
  { apply bool_decide_eq_true. destruct Hdir as [Hnil|Hdir]; [by left|].
    right. eauto. }
  unfold bind, get. cbn [negb orb].
  by rewrite (proj2 (is_dir_spec _ _) Hdir).
Qed.

(** What a successful [load] has done. *)
Lemma load_Ok self data w b w' :
  etl_load self data w = (Ok b, w') →
  let ext := extension lower (destination_path self) in
  let dest := Path.abspath (cwd w) (destination_path self) in
  let w0 := snd (logger_info (Loading (destination_path self)) w) in
  b = true ∧ supported ext ∧
  ∃ w1 content,
    Os.makedirs (Path.dirname dest) true w0 = (Ok tt, w1) ∧
    renderer_of ext (destination_path self) data = Ok content ∧
    fs w' = <[dest := File content]> (fs w1) ∧
    cwd w' = cwd w ∧
    log w' = log w ++ [(INFO, Loading (destination_path self));
                       (INFO, Loaded (Pandas.len data) (destination_path self))].
Proof using render_csv render_json render_excel.
  clear parse_csv parse_json parse_excel.
  intros H ext dest w0.
  destruct (load_cases render_csv render_json render_excel self data w)
    as (writer & Hwriter & Heq).
  cbn zeta in Heq. fold ext dest w0 in Hwriter, Heq. rewrite Heq in H. clear Heq.
  destruct (Os.makedirs (Path.dirname dest) true w0) as [[[]|e] w1] eqn:Hmk;
    [|discriminate].
  destruct (makedirs_spec _ _ _ _ Hmk) as (Hcwd1 & Hlog1 & _).
  destruct (writer w1) as [[[]|e] w2] eqn:Hw; [|discriminate].
  injection H as <- <-. split; [done|].
  assert (".csv" ≠ ".json" ∧ (".csv" ∉ [".xlsx"; ".xls"])
          ∧ (".json" ∉ [".xlsx"; ".xls"])) as (Hcj & Hcx & Hjx).
  { rewrite !elem_of_cons, !elem_of_nil. by repeat split; intros; intuition. }
  pose proof (supported_cases ext) as Hsup.
  assert (∀ render,
            writer = write_with render data (destination_path self) →
            ∃ content,
              render (destination_path self) data = Ok content ∧
              fs w2 = <[dest := File content]> (fs w1) ∧
              cwd w2 = cwd w ∧ log w2 = log w0) as Hwrite.
  { intros render ->.
    apply write_with_spec in Hw
      as (Hcwd2 & Hlog2 & [(e & [=] & _)|(content & _ & Hrender & Hfs)]).
    exists content. split; [done|]. split; [by rewrite Hfs, Hcwd1|].
    split; [by rewrite Hcwd2, Hcwd1 | by rewrite Hlog2]. }
  unfold to_csv, to_json, to_excel in Hwriter.
  destruct Hwriter as [[He Hr]|[[He Hr]|[[He Hr]|[He Hr]]]].
  - split; [tauto|]. destruct (Hwrite _ Hr) as (content & ? & ? & ? & Hlog).
    exists w1, content. rewrite bool_decide_eq_true_2 by done.
    cbn. rewrite Hlog. cbn. repeat split; try done. by rewrite <- app_assoc.
  - split; [tauto|]. destruct (Hwrite _ Hr) as (content & ? & ? & ? & Hlog).
    exists w1, content. rewrite bool_decide_eq_false_2 by congruence.
    rewrite bool_decide_eq_true_2 by done.
    cbn. rewrite Hlog. cbn. repeat split; try done. by rewrite <- app_assoc.
  - split; [tauto|]. destruct (Hwrite _ Hr) as (content & ? & ? & ? & Hlog).
    exists w1, content.
    rewrite bool_decide_eq_false_2 by (intros Heq; by rewrite Heq in He).
    rewrite bool_decide_eq_false_2 by (intros Heq; by rewrite Heq in He).
    cbn. rewrite Hlog. cbn. repeat split; try done. by rewrite <- app_assoc.
  - rewrite Hr in Hw. discriminate.
Qed.

(** X9: when [load] returns, it returns [True]; the extension of the
    destination is a supported one; the destination is a file that holds
    what the writer of that format renders for the frame; the parent
    directory and the directories above it are there; and nothing else in
    the tree has changed but the directories made on the way. *)
Theorem load_writes_destination self data w b w' :
  tree (fs w) →
  etl_load self data w = (Ok b, w') →
  let ext := extension lower (destination_path self) in
  let dest := Path.abspath (cwd w) (destination_path self) in
  b = true ∧ supported ext ∧
  (∃ content,
     renderer_of ext (destination_path self) data = Ok content ∧
     fs w' !! dest = Some (File content)) ∧
  dirs_down_to (fs w') (Path.dirname dest) ∧
  (∀ q, q ≠ dest → ¬ q `prefix_of` Path.dirname dest →
        fs w' !! q = fs w !! q) ∧
  cwd w' = cwd w.
Proof using render_csv render_json render_excel.
  clear parse_csv parse_json parse_excel.
  intros Htree H ext dest.
  destruct (load_Ok self data w b w' H)
    as (-> & Hext & w1 & content & Hmk & Hrender & Hfs & Hcwd & _).
  fold ext dest in Hext, Hmk, Hrender, Hfs.
  destruct (makedirs_spec _ _ _ _ Hmk) as (_ & _ & Hframe & _ & Hdirs & _).
  split; [done|]. split; [done|]. split.
  { exists content. split; [done|]. by rewrite Hfs, lookup_insert_eq. }
  split.
  - intros q Hq. destruct (decide (q = [])) as [->|Hne]; [by left|].
    destruct (Hdirs Htree (ex_intro _ tt eq_refl) q Hq) as [?|Hd]; [done|].
    right. rewrite Hfs, lookup_insert_ne; [done|].
    intros <-. by apply (not_prefix_of_dirname dest Hne).
  - split; [|done]. intros q Hq Hpre.
    rewrite Hfs, lookup_insert_ne by done. by apply Hframe.
Qed.

(** X10: when the parent directory of the destination is there already,
    as for a bare file name in the working directory, [makedirs] makes
    nothing and [load], whatever its outcome, changes the tree at the
    destination at most. *)
Theorem load_into_existing_directory self data w r w' :
  tree (fs w) →
  is_dir (fs w)
    (Path.dirname (Path.abspath (cwd w) (destination_path self))) →
  etl_load self data w = (r, w') →
  ∀ q, q ≠ Path.abspath (cwd w) (destination_path self) →
       fs w' !! q = fs w !! q.
Proof using render_csv render_json render_excel.
  clear parse_csv parse_json parse_excel.
  intros Htree Hdir H q Hq.
  destruct (load_cases render_csv render_json render_excel self data w)
    as (writer & Hwriter & Heq).
  cbn zeta in Heq. rewrite Heq in H. clear Heq.
  rewrite (makedirs_existing _ (snd (logger_info _ w)) Htree Hdir) in H.
  set (w0 := snd (logger_info (Loading (destination_path self)) w)) in *.
  assert (∀ render r2 w2,
            write_with render data (destination_path self) w0 = (r2, w2) →
            fs w2 !! q = fs w !! q) as Hwrite.
  { intros render r2 w2 Hw.
    apply write_with_spec in Hw
      as (_ & _ & [(e & _ & _ & ->)|(content & _ & _ & ->)]); [done|].
    by rewrite lookup_insert_ne. }
  unfold to_csv, to_json, to_excel in Hwriter.
  destruct Hwriter as [[_ ->]|[[_ ->]|[[_ ->]|[_ ->]]]].
  1-3: destruct (write_with _ data (destination_path self) w0)
         as [[[]|e] w2] eqn:Hw;
       injection H as <- <-; by apply Hwrite in Hw.
  by injection H as <- <-.
Qed.

(** X11: when [run] returns [True], the source was a file of the tree, and
    the destination now is a file that holds what the writer renders for
    the frame [transform] made of the frame the parser read; the log tells
    the eight steps, with the number of rows read and written. *)
Theorem run_delivers self now w w' :
  etl_run self now w = (Ok true, w') →
  let source := Path.abspath (cwd w) (source_path self) in
  let dest := Path.abspath (cwd w) (destination_path self) in
  ∃ source_content raw w1 t w2 content,
    fs w !! source = Some (File source_content) ∧
    parser_of (extension lower (source_path self)) (source_path self) source_content
    = Ok raw ∧
    transform lower now raw w1 = (Ok t, w2) ∧
    renderer_of (extension lower (destination_path self)) (destination_path self) t
    = Ok content ∧
    fs w' !! dest = Some (File content) ∧
    log w' = log w ++ [(INFO, PipelineStarting);
                       (INFO, Extracting (source_path self));
                       (INFO, Extracted (length (rows raw)));
                       (INFO, Transforming);
                       (INFO, Transformed (length (rows t)));
                       (INFO, Loading (destination_path self));
                       (INFO, Loaded (length (rows t)) (destination_path self));
                       (INFO, PipelineCompleted)].
Proof.
  intros H source dest.
  rewrite (run_cases parse_csv parse_json parse_excel
             render_csv render_json render_excel self now w) in H.
  cbn zeta in H.
  set (w0 := snd (logger_info PipelineStarting w)) in *.
  destruct (extract_outcomes self w0)
    as [(source_content & raw & _ & Hfile & Hparse & Hex)|(e & Hex & _)];
    rewrite Hex in H; [|discriminate].
  set (w1 := snd (logger_info (Extracted (Pandas.len raw))
                    (snd (logger_info (Extracting (source_path self)) w0)))) in *.
  destruct (transform lower now raw w1) as [[t|e] w2] eqn:Ht; [|discriminate].
  destruct (transform_world _ _ _ _ _ Ht) as (Hcwd2 & Hfs2 & Hlog2).
  destruct (etl_load self t w2) as [[b|e] w3] eqn:Hl; [|discriminate].
  injection H as <-.
  destruct (load_Ok self t w2 b w3 Hl)
    as (_ & _ & w4 & content & _ & Hrender & Hfs3 & Hcwd3 & Hlog3).
  exists source_content, raw, w1, t, w2, content.
  split; [exact Hfile|]. split; [exact Hparse|]. split; [exact Ht|].
  split; [exact Hrender|]. split.
  - cbn. rewrite Hfs3, Hcwd2. apply lookup_insert_eq.
  - cbn. rewrite Hlog3, Hlog2. cbn. by rewrite <- !app_assoc.
Qed.

(** X12: when the frame read has a column label that is not a string, as
    for a numeric header, [transform] fails, [run] returns [False], [load]
    is not reached and the tree is as before. *)
Theorem run_rejects_numeric_label self now w raw w1 z :
  etl_extract self (snd (logger_info PipelineStarting w)) = (Ok raw, w1) →
  LInt z ∈ columns raw →
  ∃ msg w',
    etl_run self now w = (Ok false, w') ∧
    fs w' = fs w ∧ cwd w' = cwd w ∧
    log w' = log w ++ [(INFO, PipelineStarting);
                       (INFO, Extracting (source_path self));
                       (INFO, Extracted (length (rows raw)));
                       (INFO, Transforming);
                       (ERROR, TransformationFailed (AttributeError msg));
                       (ERROR, PipelineFailed (AttributeError msg))].
Proof.
  intros Hex Hz.
  rewrite (run_cases parse_csv parse_json parse_excel
             render_csv render_json render_excel self now w).
  cbn zeta. rewrite Hex.
  destruct (extract_outcomes self (snd (logger_info PipelineStarting w)))
    as [(source_content & raw' & _ & _ & _ & Heq)|(e & Heq & _)];
    rewrite Heq in Hex; [|discriminate].
  injection Hex as -> Hw1.
  destruct (transform_raises now raw w1 z Hz) as (msg & w2 & Ht).
  rewrite Ht. destruct (transform_world _ _ _ _ _ Ht) as (Hcwd2 & Hfs2 & Hlog2).
  exists msg. eexists. split; [done|]. cbn.
  rewrite Hfs2, Hcwd2, Hlog2, <- Hw1. cbn.
  repeat split. by rewrite <- !app_assoc.
Qed.

(** ** The extension of a path *)






End MoreFacts.

Lemma of_chars_lower l :
  Str.of_chars (Str.lower_char <$> l) = Str.lower (Str.of_chars l).
Proof. induction l as [|c l IH]; [done|]. simpl. by rewrite <- IH. Qed.

Lemma of_chars_chars p : Str.of_chars (Str.chars p) = p.
Proof. induction p as [|c p IH]; [done|]. simpl. by rewrite IH. Qed.

Lemma lower_char_slash x :
  Ascii.eqb (Str.lower_char x) "/" = Ascii.eqb x "/".
Proof. destruct x as [[] [] [] [] [] [] [] []]; reflexivity. Qed.

Lemma lower_char_dot x :
  Ascii.eqb (Str.lower_char x) "." = Ascii.eqb x ".".
Proof. destruct x as [[] [] [] [] [] [] [] []]; reflexivity. Qed.

Lemma rfind_from_fmap (f : ascii → ascii) c l i :
  (∀ x, Ascii.eqb (f x) c = Ascii.eqb x c) →
  Str.rfind_from c (f <$> l) i = Str.rfind_from c l i.
Proof.
  intros Hf. revert i. induction l as [|x l IH]; intros i; [done|].
  rewrite fmap_cons. simpl. by rewrite IH, Hf.
Qed.

Lemma skip_leading_dots_lower l n :
  Path.skip_leading_dots (Str.lower_char <$> l) n = Path.skip_leading_dots l n.
Proof.
  revert l. induction n as [|n IH]; intros [|c l]; try done.
  rewrite fmap_cons. simpl. by rewrite lower_char_dot, IH.
Qed.

Lemma splitext_lower p :
  Path.splitext (Str.lower p)
  = (Str.lower (fst (Path.splitext p)), Str.lower (snd (Path.splitext p))).
Proof.
  unfold Path.splitext, Str.rfind. rewrite lower_chars.
  rewrite (rfind_from_fmap _ "/") by apply lower_char_slash.
  rewrite (rfind_from_fmap _ ".") by apply lower_char_dot.
  destruct (_ <? _); [|done].
  rewrite <- fmap_drop, skip_leading_dots_lower.
  destruct (Path.skip_leading_dots _ _); [|done].
  simpl. by rewrite <- fmap_take, <- fmap_drop, !of_chars_lower.
Qed.

Lemma extension_lower p :
  absorbs_ascii lower → extension lower (Str.lower p) = extension lower p.
Proof.
  intros Habsorbs. unfold extension. rewrite splitext_lower. simpl.
  apply Habsorbs.
Qed.

(** X14: the format is chosen without regard to case: two paths that
    differ only in the case of their letters [A]..[Z] have the same
    extension, so [extract] and [load] treat [REPORT.CSV] like
    [report.csv].  Of [str.lower] this uses that lower-casing the letters
    [A]..[Z] first makes no difference to it. *)
Theorem extension_ignores_case p q :
  absorbs_ascii lower →
  Str.lower p = Str.lower q → extension lower p = extension lower q.
Proof.
  intros Habsorbs H.
  by rewrite <- (extension_lower p), <- (extension_lower q), H.
Qed.

End Lower.

(** * The properties on the samples *)

Lemma sample_tree : tree (fs Sample.home).
Proof.
  intros p x n Hn. unfold Sample.home, fs in *.
  rewrite !lookup_insert in Hn. rewrite lookup_empty in Hn.
  repeat case_decide; try done.
  - left. match goal with
          | H : _ = p ++ [x] |- _ =>
              by apply (app_inj_tail [] p "home" x) in H as [<- _]
          end.
  - right. match goal with
           | H : ["home"; "etl"] = p ++ [x] |- _ =>
               apply (app_inj_tail ["home"] p "etl" x) in H as [<- _]
           end.
    reflexivity.
  - right. match goal with
           | H : ["home"; "etl"; "in.csv"] = p ++ [x] |- _ =>
               apply (app_inj_tail ["home"; "etl"] p "in.csv" x) in H as [<- _]
           end.
    reflexivity.
Qed.

Lemma sample_people_well_formed : well_formed Sample.people.
Proof. repeat constructor. Qed.

Lemma sample_tagged_well_formed : well_formed Sample.tagged.
Proof. repeat constructor. Qed.

Lemma sample_ecole_well_formed : well_formed Sample.ecole.
Proof. repeat constructor. Qed.

(** C1 on the frame of the specification's example, with the lower-casing
    of ASCII for [str.lower]: the row with the missing age is gone, the
    labels are lowered, and the remaining row carries the timestamp.  And
    on a frame with the label [ÉCOLE], with a lower-casing that knows that
    letter: the label becomes [école]. *)
Lemma transform_clean_samples :
  (idempotent Str.lower ∧ lowers_ascii Str.lower ∧
   well_formed Sample.people ∧
   ∃ d' w',
     transform Str.lower Sample.now Sample.people Sample.home = (Ok d', w') ∧
     rows d' = [[CStr "John"; CInt 28; CStr Sample.now; CInt 1]] ∧
     columns d' = [LStr "name"; LStr "age"; LStr "etl_timestamp"; LStr "id"] ∧
     (∀ r, r ∈ rows d' → CNull ∉ r) ∧
     (∀ l, l ∈ columns d' → ∃ s, l = LStr s ∧ lowercase Str.lower s) ∧
     (∀ r, r ∈ rows d' → r !! 2%nat = Some (CStr Sample.now))) ∧
  (idempotent Sample.lower_latin ∧ lowers_ascii Sample.lower_latin ∧
   well_formed Sample.ecole ∧
   ∃ d' w',
     transform Sample.lower_latin Sample.now Sample.ecole Sample.home
     = (Ok d', w') ∧
     rows d' = [[CStr "John"; CStr "Ampere"; CStr Sample.now; CInt 1]] ∧
     columns d' = [LStr "name"; LStr (String "195" (String "169" "cole"));
                   LStr "etl_timestamp"; LStr "id"] ∧
     (∀ r, r ∈ rows d' → CNull ∉ r) ∧
     (∀ l, l ∈ columns d' → ∃ s, l = LStr s ∧ lowercase Sample.lower_latin s) ∧
     (∀ r, r ∈ rows d' → r !! 2%nat = Some (CStr Sample.now))).
Proof.
  split.
  - split; [apply ascii_lower_idempotent|].
    split; [apply ascii_lower_lowers_ascii|].
    split; [apply sample_people_well_formed|].
    eexists _, _. split; [vm_compute; reflexivity|]. split; [reflexivity|].
    split; [reflexivity|].
    match goal with
    | |- context [rows ?d'] =>
        destruct (transform_clean Str.lower Sample.now Sample.people
                    Sample.home d'
                    (snd (transform Str.lower Sample.now Sample.people
                            Sample.home))
                    ascii_lower_idempotent ascii_lower_lowers_ascii
                    sample_people_well_formed)
          as (Hnull & Hlower & _ & Hstamp)
    end.
    + vm_compute. reflexivity.
    + split; [exact Hnull|]. split; [exact Hlower|].
      intros r Hr. by apply Hstamp.
  - split; [apply lower_latin_idempotent|].
    split; [apply lower_latin_lowers_ascii|].
    split; [apply sample_ecole_well_formed|].
    eexists _, _. split; [vm_compute; reflexivity|]. split; [reflexivity|].
    split; [reflexivity|].
    match goal with
    | |- context [rows ?d'] =>
        destruct (transform_clean Sample.lower_latin Sample.now Sample.ecole
                    Sample.home d'
                    (snd (transform Sample.lower_latin Sample.now Sample.ecole
                            Sample.home))
                    lower_latin_idempotent lower_latin_lowers_ascii
                    sample_ecole_well_formed)
          as (Hnull & Hlower & _ & Hstamp)
    end.
    + vm_compute. reflexivity.
    + split; [exact Hnull|]. split; [exact Hlower|].
      intros r Hr. by apply Hstamp.
Defined.

(** C2 as the specification words it fails: an [ID] column in which a value
    comes twice keeps its values, so the [id] column of the transformed
    frame is not unique. *)
Lemma duplicate_ids_survive :
  well_formed Sample.tagged ∧
  ∃ d' w',
    transform Str.lower Sample.now Sample.tagged Sample.home = (Ok d', w') ∧
    column 0 (rows d') = [Some (CInt 7); Some (CInt 7)] ∧
    ¬ unique_id d'.
Proof.
  split; [apply sample_tagged_well_formed|].
  eexists _, _. split; [vm_compute; reflexivity|]. split; [reflexivity|].
  intros [_ Hunique]. specialize (Hunique 0%nat eq_refl).
  apply NoDup_cons in Hunique as [Hin _]. apply Hin, elem_of_cons. by left.
Qed.

(** C2 as the code has it, on the same frame: the [id] column is there and
    holds what the surviving rows held. *)
Lemma transform_id_values_tagged :
  well_formed Sample.tagged ∧
  ∃ d' w',
    transform Str.lower Sample.now Sample.tagged Sample.home = (Ok d', w') ∧
    (∃ j, labelled "id" j d') ∧
    column 0 (rows d') = column 0 (surviving Sample.tagged).
Proof.
  split; [apply sample_tagged_well_formed|].
  eexists _, _. split; [vm_compute; reflexivity|].
  match goal with
  | |- context [rows ?d'] =>
      destruct (transform_id_values Str.lower Sample.now Sample.tagged Sample.home d'
                  (snd (transform Str.lower Sample.now Sample.tagged Sample.home))
                  sample_tagged_well_formed)
        as (Hex & _ & Hkept)
  end.
  - vm_compute. reflexivity.
  - split; [exact Hex|]. apply Hkept; [|reflexivity].
    intros Hno. apply (Hno "ID"); [|reflexivity].
    apply elem_of_cons. by left.
Defined.

Lemma sample_people_no_id : no_column Str.lower "id" Sample.people.
Proof.
  intros s Hs. simpl in Hs.
  repeat (apply elem_of_cons in Hs as [[= ->]|Hs]; [discriminate|]).
  by apply elem_of_nil in Hs.
Qed.

(** C3 on the specification's example: one row survives and its [id] is
    [1]. *)
Lemma transform_numbers_people :
  well_formed Sample.people ∧ no_column Str.lower "id" Sample.people ∧
  ∃ d' w',
    transform Str.lower Sample.now Sample.people Sample.home = (Ok d', w') ∧
    labelled "id" 3 d' ∧
    column 3 (rows d') = [Some (CInt 1)].
Proof.
  split; [apply sample_people_well_formed|].
  split; [apply sample_people_no_id|].
  eexists _, _. split; [vm_compute; reflexivity|]. split; [reflexivity|].
  match goal with
  | |- context [rows ?d'] =>
      destruct (transform_numbers_rows Str.lower Sample.now Sample.people Sample.home d'
                  (snd (transform Str.lower Sample.now Sample.people Sample.home))
                  sample_people_well_formed sample_people_no_id)
        as (_ & Hids)
  end.
  - vm_compute. reflexivity.
  - rewrite (Hids 3%nat eq_refl). reflexivity.
Defined.

(** C4 on a frame with an [ID] column: its values [7] and [7] stay. *)
Lemma transform_preserves_tagged :
  well_formed Sample.tagged ∧
  columns Sample.tagged !! 0%nat = Some (LStr "ID") ∧ Str.lower "ID" = "id" ∧
  ∃ d' w',
    transform Str.lower Sample.now Sample.tagged Sample.home = (Ok d', w') ∧
    labelled "id" 0 d' ∧
    column 0 (rows d') = [Some (CInt 7); Some (CInt 7)] ∧
    (∀ j', labelled "id" j' d' → j' = 0%nat).
Proof.
  split; [apply sample_tagged_well_formed|].
  split; [reflexivity|]. split; [reflexivity|].
  eexists _, _. split; [vm_compute; reflexivity|].
  match goal with
  | |- context [rows ?d'] =>
      destruct (transform_preserves_ids Str.lower Sample.now Sample.tagged Sample.home d'
                  (snd (transform Str.lower Sample.now Sample.tagged Sample.home))
                  0%nat "ID" sample_tagged_well_formed)
        as (Hlabel & Hkept & _ & Honly)
  end.
  - vm_compute. reflexivity.
  - reflexivity.
  - reflexivity.
  - split; [exact Hlabel|]. split; [rewrite Hkept; reflexivity|].
    intros j' Hj'. destruct (Honly j' Hj') as (s' & Hs' & Hlow).
    destruct j' as [|[|j']]; [done| |done].
    injection Hs' as <-. discriminate.
Defined.

(** C9 on a frame whose middle row has a missing value: the first and the
    third row survive, in that order. *)
Lemma transform_keeps_order_tagged :
  well_formed Sample.tagged ∧
  ∃ d' w' js,
    transform Str.lower Sample.now Sample.tagged Sample.home = (Ok d', w') ∧
    length (rows d') = length js ∧
    (∀ a b ja jb, js !! a = Some ja → js !! b = Some jb →
                  (a < b)%nat → (ja < jb)%nat) ∧
    (∀ j, j ∈ js ↔ ∃ r, rows Sample.tagged !! j = Some r ∧ complete r) ∧
    (∀ k j, js !! k = Some j →
       ∃ r r', rows Sample.tagged !! j = Some r ∧ rows d' !! k = Some r' ∧
         ∀ c, ¬ labelled "etl_timestamp" c d' →
              ¬ (labelled "id" c d' ∧ no_column Str.lower "id" Sample.tagged) →
              r' !! c = r !! c).
Proof.
  split; [apply sample_tagged_well_formed|].
  destruct (transform Str.lower Sample.now Sample.tagged Sample.home) as [r w'] eqn:Hrun.
  assert (∃ d', r = Ok d') as [d' ->].
  { vm_compute in Hrun. injection Hrun as <- _. by eexists. }
  destruct (transform_keeps_row_order Str.lower Sample.now Sample.tagged Sample.home d' w'
              sample_tagged_well_formed Hrun) as (js & Hjs).
  by exists d', w', js.
Defined.



(** C6 on the sample world: the three steps succeed and [run] returns
    [true]; with a source that is not there it returns [false]. *)
Lemma run_in_order_samples :
  fst (run Str.lower Sample.parse Sample.parse Sample.parse
         Sample.render Sample.render Sample.render
         (Sample.job "in.csv" "out/nested/result.json") Sample.now Sample.home)
  = Ok true
  ∧ fst (run Str.lower Sample.parse Sample.parse Sample.parse
           Sample.render Sample.render Sample.render
           (Sample.job "gone.csv" "out/nested/result.json") Sample.now
           Sample.home)
    = Ok false.
Proof.
  split.
  - pose proof (run_in_order Str.lower Sample.parse Sample.parse Sample.parse
                  Sample.render Sample.render Sample.render
                  (Sample.job "in.csv" "out/nested/result.json") Sample.now
                  Sample.home) as H.
    cbv zeta in H. destruct H as (_ & Htrue & _). apply Htrue.
    eexists _, _, _, _, _, _.
    split; [vm_compute; reflexivity|].
    split; [vm_compute; reflexivity|].
    vm_compute; reflexivity.
  - pose proof (run_in_order Str.lower Sample.parse Sample.parse Sample.parse
                  Sample.render Sample.render Sample.render
                  (Sample.job "gone.csv" "out/nested/result.json") Sample.now
                  Sample.home) as H.
    cbv zeta in H. destruct H as (_ & _ & Hextract & _).
    erewrite Hextract; [reflexivity|]. vm_compute. reflexivity.
Defined.

(** C7 on the sample world: [gone.csv] is not there, [run] returns
    [false] and nothing is at the destination afterwards. *)
Lemma run_without_source_sample :
  Os.path_exists (fs Sample.home)
    (Path.abspath (cwd Sample.home) "gone.csv") = false ∧
  ∃ w',
    run Str.lower Sample.parse Sample.parse Sample.parse
      Sample.render Sample.render Sample.render
      (Sample.job "gone.csv" "out.csv") Sample.now Sample.home = (Ok false, w') ∧
    fs w' = fs Sample.home ∧
    fs w' !! ["home"; "etl"; "out.csv"] = None.
Proof.
  split; [reflexivity|].
  destruct (run_without_source Str.lower Sample.parse Sample.parse Sample.parse
              Sample.render Sample.render Sample.render
              (Sample.job "gone.csv" "out.csv") Sample.now Sample.home)
    as (e & w' & Hrun & Hfs & _).
  - reflexivity.
  - exists w'. split; [exact Hrun|]. split; [exact Hfs|].
    rewrite Hfs. reflexivity.
Defined.




(** * The further properties on the samples *)

Lemma sample_stamped_well_formed : well_formed Sample.stamped.
Proof. repeat constructor. Qed.

(** X3 on the frame with an [ID] column: [city] stays second and keeps
    the cities of the two complete rows. *)
Lemma transform_keeps_columns_tagged :
  well_formed Sample.tagged ∧
  columns Sample.tagged !! 1%nat = Some (LStr "city") ∧
  ∃ d' w',
    transform Str.lower Sample.now Sample.tagged Sample.home = (Ok d', w') ∧
    columns d' !! 1%nat = Some (LStr "city") ∧
    column 1 (rows d') = [Some (CStr "Pune"); Some (CStr "Goa")].
Proof.
  split; [apply sample_tagged_well_formed|]. split; [reflexivity|].
  destruct (transform Str.lower Sample.now Sample.tagged Sample.home) as [r w'] eqn:Hrun.
  assert (∃ d', r = Ok d') as [d' ->].
  { vm_compute in Hrun. injection Hrun as <- _. by eexists. }
  destruct (transform_keeps_columns Str.lower Sample.now Sample.tagged Sample.home d' w'
              1%nat "city" sample_tagged_well_formed Hrun eq_refl)
    as (Hlabel & Hcells).
  exists d', w'. split; [reflexivity|]. split; [exact Hlabel|].
  rewrite Hcells; [reflexivity | discriminate].
Defined.

(** X4 on a frame that has an [ETL_Timestamp] column: its old values are
    gone. *)
Lemma transform_overwrites_stamped :
  well_formed Sample.stamped ∧
  columns Sample.stamped !! 0%nat = Some (LStr "ETL_Timestamp") ∧
  ∃ d' w',
    transform Str.lower Sample.now Sample.stamped Sample.home = (Ok d', w') ∧
    column 0 (rows d') = [Some (CStr Sample.now); Some (CStr Sample.now)] ∧
    length (columns d') = 3%nat.
Proof.
  split; [apply sample_stamped_well_formed|]. split; [reflexivity|].
  destruct (transform Str.lower Sample.now Sample.stamped Sample.home) as [r w'] eqn:Hrun.
  assert (∃ d', r = Ok d' ∧ length (columns d') = 3%nat) as (d' & -> & Hlen).
  { vm_compute in Hrun. injection Hrun as <- _. by eexists. }
  destruct (transform_overwrites_timestamp Str.lower Sample.now Sample.stamped
              Sample.home d' w' 0%nat "ETL_Timestamp"
              sample_stamped_well_formed Hrun eq_refl eq_refl)
    as (_ & Hcells & _).
  exists d', w'. split; [reflexivity|]. split; [|exact Hlen].
  rewrite Hcells. reflexivity.
Defined.

(** X5 on the specification's example: two labels become four and two
    rows become one. *)
Lemma transform_shape_people :
  well_formed Sample.people ∧
  ∃ d' w',
    transform Str.lower Sample.now Sample.people Sample.home = (Ok d', w') ∧
    well_formed d' ∧
    length (rows d') = 1%nat ∧
    ¬ Forall complete (rows Sample.people).
Proof.
  split; [apply sample_people_well_formed|].
  destruct (transform Str.lower Sample.now Sample.people Sample.home) as [r w'] eqn:Hrun.
  assert (∃ d', r = Ok d') as [d' ->].
  { vm_compute in Hrun. injection Hrun as <- _. by eexists. }
  destruct (transform_shape Str.lower Sample.now Sample.people Sample.home d' w'
              sample_people_well_formed Hrun)
    as (_ & Hwf & Hlen & _ & Hall).
  exists d', w'. split; [reflexivity|]. split; [exact Hwf|].
  split; [rewrite Hlen; reflexivity|].
  intros Hc. apply Hall in Hc. rewrite Hlen in Hc. discriminate.
Defined.

(** X6 on the specification's example: a second [transform] at the same
    time returns the frame it was given. *)
Lemma transform_again_people :
  idempotent Str.lower ∧ lowers_ascii Str.lower ∧
  well_formed Sample.people ∧
  ∃ d' w' w'',
    transform Str.lower Sample.now Sample.people Sample.home = (Ok d', w') ∧
    transform Str.lower Sample.now d' w' = (Ok d', w'').
Proof.
  split; [apply ascii_lower_idempotent|].
  split; [apply ascii_lower_lowers_ascii|].
  split; [apply sample_people_well_formed|].
  destruct (transform Str.lower Sample.now Sample.people Sample.home)
    as [r w'] eqn:Hrun.
  assert (∃ d', r = Ok d') as [d' ->].
  { vm_compute in Hrun. injection Hrun as <- _. by eexists. }
  destruct (transform_again Str.lower Sample.now Sample.now Sample.people
              Sample.home d' w' w'
              ascii_lower_idempotent ascii_lower_lowers_ascii
              sample_people_well_formed Hrun)
    as (d'' & w'' & Hagain & _ & _ & _ & _ & Hsame).
  exists d', w', w''. split; [reflexivity|].
  by rewrite <- (Hsame eq_refl) at 2.
Defined.

(** X7 on the sample world: [extract] on [in.csv] returns what the CSV
    parser makes of the file. *)
Lemma extract_returns_parsed_sample :
  ∃ w',
    extract Str.lower Sample.parse Sample.parse Sample.parse
      (Sample.job "in.csv" "out.csv") Sample.home = (Ok Sample.people, w') ∧
    fs Sample.home !! ["home"; "etl"; "in.csv"] = Some (File "Name,AGE") ∧
    fs w' = fs Sample.home ∧
    log w' = [(INFO, Extracting "in.csv"); (INFO, Extracted 2)].
Proof.
  destruct (extract Str.lower Sample.parse Sample.parse Sample.parse
              (Sample.job "in.csv" "out.csv") Sample.home) as [r w'] eqn:Hrun.
  assert (r = Ok Sample.people) as ->.
  { vm_compute in Hrun. by injection Hrun as <- _. }
  destruct (extract_returns_parsed Str.lower Sample.parse Sample.parse Sample.parse
              (Sample.job "in.csv" "out.csv") Sample.home Sample.people w' Hrun)
    as (_ & _ & _ & Hfs & Hlog).
  exists w'. split; [reflexivity|]. split; [reflexivity|].
  split; [exact Hfs | exact Hlog].
Defined.


(** X9 on the sample world: [load] to [out/nested/result.json] returns
    [True], the file holds the rendering and [out/nested] is a
    directory. *)
Lemma load_writes_destination_sample :
  tree (fs Sample.home) ∧
  ∃ w',
    load Str.lower Sample.render Sample.render Sample.render
      (Sample.job "in.csv" "out/nested/result.json") Sample.people Sample.home
    = (Ok true, w') ∧
    fs w' !! ["home"; "etl"; "out"; "nested"; "result.json"]
    = Some (File "rendered") ∧
    fs w' !! ["home"; "etl"; "out"; "nested"] = Some Dir ∧
    fs w' !! ["home"; "etl"; "in.csv"] = Some (File "Name,AGE").
Proof.
  split; [apply sample_tree|].
  destruct (load Str.lower Sample.render Sample.render Sample.render
              (Sample.job "in.csv" "out/nested/result.json") Sample.people
              Sample.home) as [r w'] eqn:Hrun.
  assert (∃ b, r = Ok b) as [b ->].
  { vm_compute in Hrun. injection Hrun as <- _. by eexists. }
  pose proof (load_writes_destination Str.lower Sample.render Sample.render Sample.render
                (Sample.job "in.csv" "out/nested/result.json") Sample.people
                Sample.home b w' sample_tree Hrun) as H.
  cbv zeta in H.
  destruct H as (-> & _ & (content & Hrender & Hfile) & Hdirs & Hframe & _).
  exists w'. split; [reflexivity|]. split.
  { vm_compute in Hrender. injection Hrender as <-. exact Hfile. }
  split.
  - destruct (Hdirs ["home"; "etl"; "out"; "nested"]) as [[=]|Hd];
      [by exists [] | exact Hd].
  - rewrite Hframe; [reflexivity|discriminate|].
    intros [k Hk]. discriminate.
Defined.

(** X10 on the sample world: [load] to the bare name [out.csv] leaves
    [in.csv] and the directories as they are. *)
Lemma load_into_existing_directory_sample :
  tree (fs Sample.home) ∧
  is_dir (fs Sample.home)
    (Path.dirname (Path.abspath (cwd Sample.home) "out.csv")) ∧
  ∃ r w',
    load Str.lower Sample.render Sample.render Sample.render
      (Sample.job "in.csv" "out.csv") Sample.people Sample.home = (r, w') ∧
    fs w' !! ["home"; "etl"; "in.csv"] = Some (File "Name,AGE") ∧
    fs w' !! ["home"; "etl"; "out"] = None.
Proof.
  assert (is_dir (fs Sample.home)
            (Path.dirname (Path.abspath (cwd Sample.home) "out.csv"))) as Hdir.
  { right. reflexivity. }
  split; [apply sample_tree|]. split; [exact Hdir|].
  destruct (load Str.lower Sample.render Sample.render Sample.render
              (Sample.job "in.csv" "out.csv") Sample.people Sample.home)
    as [r w'] eqn:Hrun.
  pose proof (load_into_existing_directory Str.lower Sample.render Sample.render
                Sample.render (Sample.job "in.csv" "out.csv") Sample.people
                Sample.home r w' sample_tree Hdir Hrun) as Hframe.
  exists r, w'. split; [reflexivity|]. split.
  - rewrite Hframe; [reflexivity | discriminate].
  - rewrite Hframe; [reflexivity | discriminate].
Defined.

(** X11 on the sample world: [run] from [in.csv] to
    [out/nested/result.json] returns [True] and the destination holds the
    rendering. *)
Lemma run_delivers_sample :
  ∃ w',
    run Str.lower Sample.parse Sample.parse Sample.parse
      Sample.render Sample.render Sample.render
      (Sample.job "in.csv" "out/nested/result.json") Sample.now Sample.home
    = (Ok true, w') ∧
    fs w' !! ["home"; "etl"; "out"; "nested"; "result.json"]
    = Some (File "rendered") ∧
    length (log w') = 8%nat.
Proof.
  destruct (run Str.lower Sample.parse Sample.parse Sample.parse
              Sample.render Sample.render Sample.render
              (Sample.job "in.csv" "out/nested/result.json") Sample.now
              Sample.home) as [r w'] eqn:Hrun.
  assert (r = Ok true) as ->.
  { vm_compute in Hrun. by injection Hrun as <- _. }
  pose proof (run_delivers Str.lower Sample.parse Sample.parse Sample.parse
                Sample.render Sample.render Sample.render
                (Sample.job "in.csv" "out/nested/result.json") Sample.now
                Sample.home w' Hrun) as H.
  cbv zeta in H.
  destruct H as (sc & raw & w1 & t & w2 & content & _ & _ & _ & Hrender
                 & Hfile & Hlog).
  exists w'. split; [reflexivity|]. split.
  - vm_compute in Hrender. injection Hrender as <-. exact Hfile.
  - rewrite Hlog. reflexivity.
Defined.

(** X12 on a sheet with the numeric header [2024]: [run] returns [False]
    and nothing is written. *)
Lemma run_rejects_numeric_label_sample :
  LInt 2024 ∈ columns Sample.yearly ∧
  ∃ w',
    run Str.lower Sample.parse Sample.parse Sample.parse_yearly
      Sample.render Sample.render Sample.render
      (Sample.job "in.xlsx" "out.xlsx") Sample.now
      {| cwd := ["home"; "etl"];
         fs := <[ ["home"; "etl"; "in.xlsx"] := File "sheet" ]> (fs Sample.home);
         log := [] |}
    = (Ok false, w') ∧
    fs w' = <[ ["home"; "etl"; "in.xlsx"] := File "sheet" ]> (fs Sample.home).
Proof.
  assert (LInt 2024 ∈ columns Sample.yearly) as Hz.
  { apply elem_of_cons. right. apply elem_of_cons. by left. }
  split; [exact Hz|].
  set (w := {| cwd := ["home"; "etl"];
               fs := <[ ["home"; "etl"; "in.xlsx"] := File "sheet" ]>
                       (fs Sample.home);
               log := [] |}).
  destruct (extract Str.lower Sample.parse Sample.parse Sample.parse_yearly
              (Sample.job "in.xlsx" "out.xlsx")
              (snd (logger_info PipelineStarting w))) as [r w1] eqn:Hex.
  assert (r = Ok Sample.yearly) as ->.
  { vm_compute in Hex. by injection Hex as <- _. }
  destruct (run_rejects_numeric_label Str.lower Sample.parse Sample.parse
              Sample.parse_yearly Sample.render Sample.render Sample.render
              (Sample.job "in.xlsx" "out.xlsx") Sample.now w Sample.yearly w1
              2024 Hex Hz) as (msg & w' & Hrun & Hfs & _).
  exists w'. split; [exact Hrun | exact Hfs].
Defined.


(** X14 on two spellings of one path. *)
Lemma extension_ignores_case_sample :
  absorbs_ascii Str.lower ∧
  Str.lower "Data/REPORT.Csv" = Str.lower "data/report.csv" ∧
  extension Str.lower "Data/REPORT.Csv" = extension Str.lower "data/report.csv".
Proof.
  split; [apply ascii_lower_absorbs_ascii|]. split; [reflexivity|].
  apply (extension_ignores_case Str.lower "Data/REPORT.Csv" "data/report.csv"
           ascii_lower_absorbs_ascii).
  reflexivity.
Defined.
